(** * sql_useful: a shallow embedding of [sql_useful.py] and its properties

    The development follows the layout of the Python module: Python values
    and string helpers, [parse_bool], the MySQL backend, the SQLite backend,
    the [BulkInserter] and [parse_dbms_params].

    Conventions.
    - A Python [str] is a [string]; a character is an [ascii], read as the
      code point 0..255.  The code only ever compares characters with ASCII
      constants, every other code point takes the same branch as an
      unlisted Latin-1 one.
    - A Python [int] is a [Z]; [bytes] is a [list byte].
    - A Python call that may raise returns a [Res]; a generator returns the
      list of the items it yielded together with the way it ended.
    - The interpreter is Python 3.7 or later: a [StopIteration] raised
      inside the body of a generator leaves it as a [RuntimeError]. *)

From Stdlib Require Import ZArith Lia Bool Ascii String List NArith.
From Stdlib.Strings Require Import Byte.
From Stdlib Require Import DecimalString.
From stdpp Require Import gmap strings list fin_maps.
Import ListNotations.

#[local] Open Scope string_scope.
#[local] Open Scope Z_scope.

(** ** Python values and exceptions *)

Inductive pyval : Type :=
| VNone
| VBool (b : bool)
| VInt (n : Z)
| VStr (s : string)
| VBytes (bs : list byte).

(** The payload of a [ValueError]: the object the message is built from. *)
Inductive value_error : Type :=
| InvalidBool (c : string)          (* "invalid bool value %s" % repr(s) *)
| InvalidInt (s : string)           (* int(s) refused s *)
| UnpackError (n : nat).            (* keyword, value = <n items> *)

(** The payload of a [getopt.GetoptError]: the arguments of its format. *)
Inductive getopt_error : Type :=
| NeedDBMS (doing_what : string)
| UnrecognizedDBMS (dbmstype doing_what : string)
| UnrecognizedParams (dbmstype joined doing_what : string).

Inductive exn : Type :=
| ValueError (e : value_error)
| IndexError
| KeyError (key : string)
| TypeError
| AttributeError
| NameError (name : string)
| AssertionError (msg : string)
| GetoptError (e : getopt_error)
| DatabaseError (stmt : string)
| StopIteration
| RuntimeError (msg : string).

Inductive Res (A : Type) : Type :=
| Ok (a : A)
| Raise (e : exn).
Arguments Ok {A} a.
Arguments Raise {A} e.

Definition res_bind {A B} (r : Res A) (k : A -> Res B) : Res B :=
  match r with
  | Ok a => k a
  | Raise e => Raise e
  end.

(** ** Characters and strings *)

Definition chr (n : nat) : ascii := ascii_of_nat n.
Definition ord (c : ascii) : nat := nat_of_ascii c.
Definition str1 (c : ascii) : string := String c EmptyString.

Definition dquote : ascii := chr 34.
Definition squote : ascii := chr 39.
Definition backslash : ascii := chr 92.

(** [str.lower()] on one character of the range 0..255. *)
Definition lower_char (c : ascii) : ascii :=
  let n := ord c in
  if ((65 <=? n) && (n <=? 90))%nat then chr (n + 32)
  else if ((192 <=? n) && (n <=? 222) && negb (n =? 215))%nat then chr (n + 32)
  else c.

(** [str(n)] for an [int]. *)
Definition str_of_int (n : Z) : string :=
  NilZero.string_of_int (Z.to_int n).

(** [str(v)].  The text of a [bytes] object (its [repr]) is left out: no
    caller applies [str] to [bytes]. *)
Definition py_str (v : pyval) : string :=
  match v with
  | VNone => "None"
  | VBool true => "True"
  | VBool false => "False"
  | VInt n => str_of_int n
  | VStr s => s
  | VBytes _ => ""
  end.

(** ** parse_bool *)

Definition parse_bool (s : string) : Res bool :=
  match s with
  | EmptyString => Raise IndexError                       (* s[0] *)
  | String c _ =>
      let s := str1 (lower_char c) in
      if (s =? "y") || (s =? "t") || (s =? "1") then Ok true
      else if (s =? "n") || (s =? "f") || (s =? "0") then Ok false
      else Raise (ValueError (InvalidBool s))
  end%string.

(** ** Generators

    A generator is run to its end: the items it yielded, in order, and the
    way it stopped. *)

Inductive ending : Type :=
| Exhausted
| Raised (e : exn).

Definition gen (A : Type) : Type := (list A * ending)%type.

(** Puts an item in front of what the rest of the generator yields. *)
Definition yield_then {A} (x : A) (g : gen A) : gen A := (x :: fst g, snd g).

(** An exception that leaves the body of a generator.  The interpreter
    replaces a [StopIteration] by a [RuntimeError] (PEP 479, the rule since
    Python 3.7); any other exception passes as it is. *)
Definition generator_raise (e : exn) : ending :=
  match e with
  | StopIteration => Raised (RuntimeError "generator raised StopIteration")
  | _ => Raised e
  end.

(** ** Descriptors (the dicts the introspection generators yield) *)

Record column_descriptor : Type := {
  col_name : string;
  col_type : string;
  not_null : bool;
  default : pyval;
  primary_key_seq : option Z       (* the key is absent when [None] *)
}.

Record key_descriptor : Type := {
  key_name : string;
  unique : bool;
  fields : list string
}.

(** [entry["fields"].append(field_name)] *)
Definition append_field (entry : key_descriptor) (field_name : string)
  : key_descriptor :=
  {| key_name := key_name entry;
     unique := unique entry;
     fields := (fields entry ++ [field_name])%list |}.

(** ** MySQLDBMS *)

(** One row of [show keys from T]: item[0] .. item[4]. *)
Record key_row : Type := {
  kr_table : string;
  kr_non_unique : Z;
  kr_key_name : string;
  kr_seq_in_index : Z;
  kr_column_name : string
}.

(** One row of [show columns from T]: item[0] .. item[5]. *)
Record column_row : Type := {
  cr_field : string;
  cr_type : string;
  cr_null : string;
  cr_key : string;
  cr_default : pyval;
  cr_extra : string
}.

(** What the server answers: the rows of [show tables] and of the two
    statements per table, in the order the cursor returns them. *)
Record mysql_server : Type := {
  show_tables : list string;
  show_keys_from : string -> list key_row;
  show_columns_from : string -> list column_row
}.

(** The state of the [while] loop of [MySQLDBMS.iter_keys]: before the first
    row only [last_key_name] is bound (to [None]); from then on the three
    variables are bound together. *)
Inductive keys_loop : Type :=
| Start
| InKey (last_key_name : string) (entry : key_descriptor) (last_key_seq : Z).

Module MySQLDBMS.

Definition hex_digit (n : N) : ascii :=
  match String.get (N.to_nat n) "0123456789ABCDEF" with
  | Some c => c
  | None => "0"%char
  end.

(** ["%02X" % i] for a byte [i]. *)
Definition hex2 (i : byte) : String.string :=
  let n := Byte.to_N i in
  String (hex_digit (n / 16)) (String (hex_digit (n mod 16)) EmptyString).

(** The [if]/[elif] chain in the body of the [for ch in str(s)] loop. *)
Definition escape_char (ch : ascii) : String.string :=
  if (ch =? chr 0)%char then "\0"
  else if (ch =? chr 8)%char then "\b"
  else if (ch =? chr 9)%char then "\t"
  else if (ch =? chr 10)%char then "\n"
  else if (ch =? chr 13)%char then "\r"
  else if (ch =? chr 26)%char then "\z"
  else if ((ch =? squote) || (ch =? dquote) || (ch =? backslash))%char
  then String backslash (str1 ch)
  else str1 ch.

Definition string (s : pyval) : String.string :=
  match s with
  | VNone => "null"
  | VBytes bs => "X'" ++ String.concat "" (map hex2 bs) ++ "'"
  | _ =>
      let result :=
        fold_left (fun result ch => (result ++ [escape_char ch])%list)
                  (list_ascii_of_string (py_str s)) [] in
      str1 dquote ++ String.concat "" result ++ str1 dquote
  end.

(** The statement of [iter_columns] that lists the primary key. *)
Definition show_primary_keys (srv : mysql_server) (table_name : String.string)
  : list key_row :=
  List.filter (fun r => String.eqb (kr_key_name r) "PRIMARY")
         (show_keys_from srv table_name).

(** The statement of [iter_keys]. *)
Definition show_other_keys (srv : mysql_server) (table_name : String.string)
  : list key_row :=
  List.filter (fun r => negb (String.eqb (kr_key_name r) "PRIMARY"))
         (show_keys_from srv table_name).

(** [iter]: [while True: yield mapfn(next(cursor))] on the cursor of an
    executed statement, given by the rows it still holds.  With no row left
    [next(cursor)] raises [StopIteration] inside the generator. *)
Fixpoint iter {A B} (cursor : list A) (mapfn : A -> B) : gen B :=
  match cursor with
  | row :: cursor' => yield_then (mapfn row) (iter cursor' mapfn)
  | [] => ([], generator_raise StopIteration)
  end.

(** [mapfn = lambda x : x[0]] on the one-column rows of [show tables]. *)
Definition iter_table_names (srv : mysql_server) : gen String.string :=
  iter (show_tables srv) (fun x => x).

(** The body of the second loop of [iter_columns], up to its [yield]. *)
Definition column_of_item (primary_key_seq : gmap String.string Z) (item : column_row)
  : column_descriptor :=
  let name := cr_field item in
  {| col_name := name;
     col_type := cr_type item;
     not_null := negb (String.eqb (cr_null item) "NO");
     default := cr_default item;
     primary_key_seq := primary_key_seq !! name |}.

(** The two [for] loops of [iter_columns].  A [for] loop ends as the
    generator it runs over ends: an exception of that generator leaves the
    loop and the function. *)
Definition iter_columns (srv : mysql_server) (table_name : String.string)
  : gen column_descriptor :=
  let keys := iter (show_primary_keys srv table_name) (fun x => x) in
  let primary_key_seq : gmap String.string Z :=
    fold_left (fun m item => <[kr_column_name item := kr_seq_in_index item]> m)
              (fst keys) ∅ in
  match snd keys with
  | Raised e => ([], Raised e)
  | Exhausted =>
      let columns := iter (show_columns_from srv table_name) (fun x => x) in
      (map (column_of_item primary_key_seq) (fst columns), snd columns)
  end.

(** The message of the [assert] in [iter_keys]; assertions are executed
    (the interpreter does not run with [-O]). *)
Definition assert_msg : String.string := "key fields not being returned in sequence".

(** The [while True] loop of [iter_keys] over the generator [keys], given
    by the rows it has yet to yield and the way it then stops, one round per
    row.  In the round after the last row [next(keys, None)] returns [None]
    when [keys] ends normally, and lets the exception pass when [keys] ends
    with one. *)
Fixpoint iter_keys_loop (keys : list key_row) (stop : ending) (st : keys_loop)
  : gen key_descriptor :=
  match keys with
  | [] =>
      match stop with
      | Raised e => ([], Raised e)
      | Exhausted =>
          (* item == None *)
          match st with
          | Start => ([], Exhausted)
          | InKey _ entry _ => ([entry], Exhausted)
          end
      end
  | item :: keys' =>
      let key_name := kr_key_name item in
      let unique := (kr_non_unique item =? 0)%Z in
      let field_name := kr_column_name item in
      let key_seq := kr_seq_in_index item in
      let fresh := {| key_name := key_name; unique := unique; fields := [] |} in
      (* if item == None or key_name != last_key_name *)
      let '(yielded, entry, last_key_seq) :=
        match st with
        | Start => ([], fresh, 0%Z)
        | InKey last_key_name entry last_key_seq =>
            if String.eqb key_name last_key_name
            then ([], entry, last_key_seq)
            else ([entry], fresh, 0%Z)
        end in
      if (key_seq =? last_key_seq + 1)%Z then
        let entry := append_field entry field_name in
        let rest := iter_keys_loop keys' stop (InKey key_name entry key_seq) in
        ((yielded ++ fst rest)%list, snd rest)
      else
        (yielded, Raised (AssertionError assert_msg))
  end.

Definition iter_keys (srv : mysql_server) (table_name : String.string)
  : gen key_descriptor :=
  let keys := iter (show_other_keys srv table_name) (fun x => x) in
  iter_keys_loop (fst keys) (snd keys) Start.

(** One round of the [for oldname, newname in ...] loop of [__init__]. *)
Definition rename (parms : gmap String.string pyval)
           (names : String.string * String.string) : gmap String.string pyval :=
  let '(oldname, newname) := names in
  match parms !! oldname with
  | Some v => delete oldname (<[newname := v]> parms)
  | None => parms
  end.

(** [__init__] up to the call of [mysql.connector.connect]: the keyword
    arguments that call receives. *)
Definition __init__ (parms : gmap String.string pyval) : gmap String.string pyval :=
  let parms := fold_left rename [("database", "db"); ("password", "passwd")] parms in
  <["buffered" := VBool true]> parms.

End MySQLDBMS.

(** ** Regular-expression and string helpers used by SQLiteDBMS *)

(** [\w] of a [str] pattern: alphanumeric code points and the underscore. *)
Definition is_word (c : ascii) : bool :=
  let n := ord c in
  ((48 <=? n) && (n <=? 57) || (65 <=? n) && (n <=? 90)
   || (97 <=? n) && (n <=? 122) || (n =? 95)
   || (n =? 170) || (n =? 178) || (n =? 179) || (n =? 181)
   || (185 <=? n) && (n <=? 186) || (188 <=? n) && (n <=? 190)
   || (192 <=? n) && (n <=? 214) || (216 <=? n) && (n <=? 246)
   || (248 <=? n))%nat.

(** [\s] of a [str] pattern, also what [str.strip()] removes. *)
Definition is_space (c : ascii) : bool :=
  let n := ord c in
  ((9 <=? n) && (n <=? 13) || (28 <=? n) && (n <=? 32)
   || (n =? 133) || (n =? 160))%nat.

(** A literal of the pattern, matched under [re.IGNORECASE] at the start of
    [s]; the result is the text it matched and what follows it. *)
Fixpoint match_literal (lit s : string) : option (string * string) :=
  match lit with
  | EmptyString => Some (EmptyString, s)
  | String a lit' =>
      match s with
      | String b s' =>
          if (lower_char a =? lower_char b)%char
          then match match_literal lit' s' with
               | Some (m, rest) => Some (String b m, rest)
               | None => None
               end
          else None
      | EmptyString => None
      end
  end.

(** The longest prefix whose characters satisfy [p], and the rest. *)
Fixpoint span_while (p : ascii -> bool) (s : string) : string * string :=
  match s with
  | String c s' =>
      if p c then let '(a, b) := span_while p s' in (String c a, b)
      else (EmptyString, s)
  | EmptyString => (EmptyString, EmptyString)
  end.

(** [p+] : a greedy, non-empty run. *)
Definition match_plus (p : ascii -> bool) (s : string) : option (string * string) :=
  match span_while p s with
  | (EmptyString, _) => None
  | (a, b) => Some (a, b)
  end.

(** [s.split(sep)] for a one-character separator. *)
Fixpoint split (sep : ascii) (s : string) : list string :=
  match s with
  | EmptyString => [EmptyString]
  | String c s' =>
      if (c =? sep)%char then EmptyString :: split sep s'
      else match split sep s' with
           | h :: t => String c h :: t
           | [] => [str1 c]
           end
  end.

(** [s.split(sep, 1)]: at most one cut, at the first separator. *)
Fixpoint split1 (sep : ascii) (s : string) : list string :=
  match s with
  | EmptyString => [EmptyString]
  | String c s' =>
      if (c =? sep)%char then [EmptyString; s']
      else match split1 sep s' with
           | h :: t => String c h :: t
           | [] => [str1 c]
           end
  end.

Fixpoint lstrip (s : string) : string :=
  match s with
  | String c s' => if is_space c then lstrip s' else s
  | EmptyString => EmptyString
  end.

Fixpoint rstrip (s : string) : string :=
  match s with
  | String c s' =>
      match rstrip s' with
      | EmptyString => if is_space c then EmptyString else str1 c
      | r => String c r
      end
  | EmptyString => EmptyString
  end.

(** [s.strip()] *)
Definition strip (s : string) : string := rstrip (lstrip s).

(** The groups of a successful match of the index pattern. *)
Record index_match : Type := {
  group1 : option string;
  group2 : string;
  group3 : string;
  group4 : string
}.

(** ** SQLiteDBMS *)

(** One row of [sqlite_master]. *)
Record master_row : Type := {
  m_type : string;
  m_name : string;
  m_tbl_name : string;
  m_sql : option string            (* NULL for an automatic index *)
}.

(** One row of [pragma table_info(T)]: item[0] .. item[5]. *)
Record table_info_row : Type := {
  ti_cid : Z;
  ti_name : string;
  ti_type : string;
  ti_notnull : Z;
  ti_dflt_value : pyval;
  ti_pk : Z
}.

Record sqlite_database : Type := {
  sqlite_master : list master_row;
  table_info : string -> list table_info_row
}.

(** The three constants of the apsw library that [SQLiteDBMS.__init__]
    uses. *)
Record open_flags : Type := {
  SQLITE_OPEN_READONLY : Z;
  SQLITE_OPEN_READWRITE : Z;
  SQLITE_OPEN_CREATE : Z
}.

(** The names bound at the top level of the module: its four imports (the
    name [re] is not among them), then its classes and functions. *)
Definition module_globals : list string :=
  ["mysql"; "sqlite"; "getopt"; "getpass"; "AbstractDBMS"; "parse_bool";
   "MySQLDBMS"; "SQLiteDBMS"; "DBMSClasses"; "BulkInserter"; "parse_dbms_params"].

Definition bound (globals : list string) (name : string) : bool :=
  existsb (String.eqb name) globals.

Module SQLiteDBMS.

(** [sqlite.format_sql_value] belongs to the apsw library. *)
Definition string (format_sql_value : pyval -> String.string) (s : pyval)
  : String.string :=
  format_sql_value s.

(** [iter]: [while True: yield mapfn(next(result))] on the cursor of an
    executed statement, given by the rows it still holds.  With no row left
    [next(result)] raises [StopIteration] inside the generator. *)
Fixpoint iter {A B} (result : list A) (mapfn : A -> B) : gen B :=
  match result with
  | row :: result' => yield_then (mapfn row) (iter result' mapfn)
  | [] => ([], generator_raise StopIteration)
  end.

(** [select name from sqlite_master where type = 'table'], with
    [mapfn = lambda x : x[0]]. *)
Definition iter_table_names (db : sqlite_database) : gen String.string :=
  iter (List.filter (fun r => String.eqb (m_type r) "table") (sqlite_master db)) m_name.

(** The body of the loop of [iter_columns], up to its [yield]. *)
Definition column_of_item (item : table_info_row) : column_descriptor :=
  let name := ti_name item in
  {| col_name := name;
     col_type := ti_type item;
     not_null := negb (ti_notnull item =? 0)%Z;
     default := ti_dflt_value item;
     primary_key_seq :=
       if (ti_pk item =? 0)%Z then None else Some (ti_pk item) |}.

(** A [for] loop ends as the generator it runs over ends. *)
Definition iter_columns (db : sqlite_database) (table_name : String.string)
  : gen column_descriptor :=
  let items := iter (table_info db table_name) (fun x => x) in
  (map column_of_item (fst items), snd items).

(** [re.search(r"^create( unique)? index (\w+) on (\w+)\s*\(([^\)]+)\)",
    item, re.IGNORECASE)].  The pattern is anchored and each of its greedy
    parts is followed by a character the part itself cannot match, so the
    first attempt of the matcher is its only one. *)
Definition search_index (item : String.string) : option index_match :=
  '(_, s) ← match_literal "create" item;
  let '(g1, s) :=
    match match_literal " unique" s with
    | Some (m, s') => (Some m, s')
    | None => (None, s)
    end in
  '(_, s) ← match_literal " index " s;
  '(g2, s) ← match_plus is_word s;
  '(_, s) ← match_literal " on " s;
  '(g3, s) ← match_plus is_word s;
  let '(_, s) := span_while is_space s in
  '(_, s) ← match_literal "(" s;
  '(g4, s) ← match_plus (fun c => negb (c =? ")")%char) s;
  _ ← match_literal ")" s;
  Some {| group1 := g1; group2 := g2; group3 := g3; group4 := g4 |}.

(** The statement of [iter_keys], which does not mention [table_name]: its
    one-column rows, each given by the value it holds. *)
Definition select_index_sql (db : sqlite_database) : list (option String.string) :=
  map m_sql (List.filter (fun r => String.eqb (m_type r) "index") (sqlite_master db)).

(** The body of the [for item in ...] loop, up to its [yield]. *)
Definition key_of_item (globals : list String.string) (item : option String.string)
  : Res key_descriptor :=
  if negb (bound globals "re") then Raise (NameError "re")
  else
    match item with
    | None => Raise TypeError                 (* re.search(pattern, None) *)
    | Some item =>
        match search_index item with
        | None => Raise AttributeError        (* None.group(1) *)
        | Some m =>
            let unique := match group1 m with Some _ => true | None => false end in
            let key_name := group2 m in
            let table_name := group3 m in
            let fields := map strip (split "," (group4 m)) in
            Ok {| key_name := key_name; unique := unique; fields := fields |}
        end
    end.

(** The [for item in ...] loop over a generator, given by the items it has
    yet to yield and the way it then stops. *)
Fixpoint iter_keys_loop (globals : list String.string)
         (items : list (option String.string)) (stop : ending) : gen key_descriptor :=
  match items with
  | [] => ([], stop)
  | item :: items' =>
      match key_of_item globals item with
      | Ok k => yield_then k (iter_keys_loop globals items' stop)
      | Raise e => ([], Raised e)
      end
  end.

(** [mapfn = lambda x : x[0]] takes the value of the one-column row. *)
Definition iter_keys (globals : list String.string) (db : sqlite_database)
           (table_name : String.string) : gen key_descriptor :=
  let items := iter (select_index_sql db) (fun x => x) in
  iter_keys_loop globals (fst items) (snd items).

(** [(a, b)[i]]: a tuple of two items indexed by a value. *)
Definition tuple_index (a b : Z) (i : pyval) : Res Z :=
  match i with
  | VBool false => Ok a
  | VBool true => Ok b
  | VInt n =>
      if ((n =? 0) || (n =? -2))%Z then Ok a
      else if ((n =? 1) || (n =? -1))%Z then Ok b
      else Raise IndexError
  | _ => Raise TypeError
  end.

(** [__init__(self, filename, create = False, write = True)] called with
    keyword arguments, up to the call of [sqlite.Connection]: the file name
    and the flags that call receives.  A keyword the signature does not
    have, or no [filename], is a [TypeError] of the call itself. *)
Definition __init__ (consts : open_flags) (kwargs : gmap String.string pyval)
  : Res (pyval * Z) :=
  if negb (bool_decide (dom kwargs ⊆ {[ "filename"; "create"; "write" ]}))
  then Raise TypeError
  else
    match kwargs !! "filename" with
    | None => Raise TypeError
    | Some filename =>
        let create :=
          match kwargs !! "create" with Some v => v | None => VBool false end in
        let write :=
          match kwargs !! "write" with Some v => v | None => VBool true end in
        res_bind (tuple_index (SQLITE_OPEN_READONLY consts)
                              (SQLITE_OPEN_READWRITE consts) write)
          (fun access =>
             res_bind (tuple_index 0 (SQLITE_OPEN_CREATE consts) create)
               (fun creation => Ok (filename, Z.lor access creation)))
    end.

End SQLiteDBMS.

(** ** The backend interface and the registry *)

(** What [BulkInserter] uses of an [AbstractDBMS] object besides its
    connection. *)
Record DBMS : Type := {
  dbms_string : pyval -> string;
  blob_type : string
}.

Inductive dbms_class : Type := MySQL | SQLite.

Section Backends.

(** [sqlite.format_sql_value] of the apsw library. *)
Variable format_sql_value : pyval -> string.

Definition backend (cls : dbms_class) : DBMS :=
  match cls with
  | MySQL => {| dbms_string := MySQLDBMS.string; blob_type := "binary" |}
  | SQLite => {| dbms_string := SQLiteDBMS.string format_sql_value;
                 blob_type := "blob" |}
  end.

End Backends.

Definition DBMSClasses : gmap string dbms_class :=
  {[ "mysql" := MySQL; "sqlite" := SQLite ]}.

(** ** The connection seen from BulkInserter

    What happens on the connection is kept as a trace, oldest event first.
    A cursor is the number of cursors opened before it. *)

Inductive event : Type :=
| OpenCursor (c : nat)
| Execute (c : nat) (stmt : string)
| Failed (c : nat) (stmt : string)
| CloseCursor (c : nat).

Definition trace : Type := list event.

Definition is_open (ev : event) : bool :=
  match ev with OpenCursor _ => true | _ => false end.

Definition statement_of (ev : event) : option string :=
  match ev with Execute _ stmt => Some stmt | _ => None end.

(** The number of cursors opened on a connection. *)
Definition opened (t : trace) : nat := length (List.filter is_open t).

(** The statements the connection has executed, oldest first. *)
Definition executed (t : trace) : list string := omap statement_of t.

(** ** BulkInserter *)

Record BulkInserter : Type := {
  sql : DBMS;
  cursor : option nat;
  table_name : string;
  field_names : list string;
  ignore_duplicates : bool;
  insert_limit : nat;
  field_values : list (list string)
}.

Definition set_cursor (c : option nat) (b : BulkInserter) : BulkInserter :=
  {| sql := sql b; cursor := c; table_name := table_name b;
     field_names := field_names b; ignore_duplicates := ignore_duplicates b;
     insert_limit := insert_limit b; field_values := field_values b |}.

Definition set_field_values (v : list (list string)) (b : BulkInserter)
  : BulkInserter :=
  {| sql := sql b; cursor := cursor b; table_name := table_name b;
     field_names := field_names b; ignore_duplicates := ignore_duplicates b;
     insert_limit := insert_limit b; field_values := v |}.

(** The argument of [add_record]: a [dict] or any other iterable. *)
Inductive record_arg : Type :=
| AsDict (d : gmap string pyval)
| AsSeq (l : list pyval).

(** A method runs on the inserter and the trace of its connection; what it
    changed before raising stays changed. *)
Definition M (A : Type) : Type :=
  BulkInserter * trace -> Res A * (BulkInserter * trace).

Definition ret {A} (a : A) : M A := fun st => (Ok a, st).

Definition bind {A B} (m : M A) (k : A -> M B) : M B :=
  fun st =>
    match m st with
    | (Ok a, st') => k a st'
    | (Raise e, st') => (Raise e, st')
    end.

Definition raise {A} (e : exn) : M A := fun st => (Raise e, st).
Definition get_self : M BulkInserter := fun st => (Ok (fst st), st).
Definition modify_self (f : BulkInserter -> BulkInserter) : M unit :=
  fun st => (Ok tt, (f (fst st), snd st)).
Definition get_trace : M trace := fun st => (Ok (snd st), st).
Definition emit (ev : event) : M unit :=
  fun st => (Ok tt, (fst st, (snd st ++ [ev])%list)).
Definition lift {A} (r : Res A) : M A := fun st => (r, st).
Definition when (b : bool) (m : M unit) : M unit := if b then m else ret tt.

Declare Scope inserter_scope.
Delimit Scope inserter_scope with ins.
Notation "'let*' x ':=' m 'in' k" := (bind m (fun x => k))
  (at level 10, x name, m at level 100, k at level 200) : inserter_scope.
Notation "'do' m 'then' k" := (bind m (fun _ => k))
  (at level 10, m at level 100, k at level 200) : inserter_scope.

(** [d[key]] *)
Definition dict_get (d : gmap string pyval) (key : string) : Res pyval :=
  match d !! key with
  | Some v => Ok v
  | None => Raise (KeyError key)
  end.

(** A [for] loop that appends one computed item per element; it stops at
    the first element whose item raises. *)
Fixpoint collect {A B} (f : A -> Res B) (l : list A) (acc : list B)
  : Res (list B) :=
  match l with
  | [] => Ok acc
  | x :: l' => res_bind (f x) (fun y => collect f l' (acc ++ [y])%list)
  end.

Section Inserter.

(** Whether the server refuses a statement, given what happened on the
    connection so far. *)
Variable refuses : trace -> string -> bool.

(** [self.sql.cursor()] *)
Definition sql_cursor : M nat :=
  (let* t := get_trace in
   let c := opened t in
   do emit (OpenCursor c) then
   ret c)%ins.

(** [self.cursor.execute(insert)] *)
Definition cursor_execute (insert : string) : M unit :=
  (let* self := get_self in
   match cursor self with
   | None => raise AttributeError
   | Some c =>
       let* t := get_trace in
       if refuses t insert
       then do emit (Failed c insert) then raise (DatabaseError insert)
       else emit (Execute c insert)
   end)%ins.

(** [self.cursor.close()] *)
Definition cursor_close : M unit :=
  (let* self := get_self in
   match cursor self with
   | None => raise AttributeError
   | Some c => emit (CloseCursor c)
   end)%ins.

Definition __init__ (conn : DBMS) (table_name : string)
           (field_names : list string) (ignore_duplicates : bool)
  : BulkInserter :=
  {| sql := conn; cursor := None; table_name := table_name;
     field_names := field_names; ignore_duplicates := ignore_duplicates;
     insert_limit := 500; field_values := [] |}.

(** The text [done_insert] builds from the attributes of [self]. *)
Definition build_insert (self : BulkInserter) : string :=
  let insert := "insert" in
  let insert := if ignore_duplicates self then insert ++ " ignore" else insert in
  let insert := insert ++ " into " ++ table_name self ++ " ("
                ++ String.concat ", " (field_names self) ++ ") values" in
  snd (fold_left
         (fun '(first_insert, insert) this_record =>
            let insert := if first_insert : bool then insert else insert ++ "," in
            (false, insert ++ " (" ++ String.concat ", " this_record ++ ")"))
         (field_values self) (true, insert)).

Definition done_insert : M unit :=
  (let* self := get_self in
   if negb (length (field_values self) =? 0)%nat then
     let insert := build_insert self in
     do cursor_execute insert then
     do cursor_close then
     do modify_self (set_cursor None) then
     modify_self (set_field_values [])
   else ret tt)%ins.

(** The two [for] loops of [add_record] that fill [this_record]. *)
Definition build_record (self : BulkInserter) (field_values : record_arg)
  : Res (list string) :=
  match field_values with
  | AsDict d =>
      collect (fun field_name =>
                 res_bind (dict_get d field_name)
                          (fun v => Ok (dbms_string (sql self) v)))
              (field_names self) []
  | AsSeq l =>
      collect (fun field_value => Ok (dbms_string (sql self) field_value)) l []
  end.

Definition add_record (field_values_arg : record_arg) : M unit :=
  (let* self := get_self in
   do when (length (field_values self) =? insert_limit self)%nat done_insert then
   let* self := get_self in
   do when (match cursor self with None => true | Some _ => false end)
           (let* c := sql_cursor in modify_self (set_cursor (Some c))) then
   let* self := get_self in
   let* this_record := lift (build_record self field_values_arg) in
   modify_self (fun self =>
                  set_field_values (field_values self ++ [this_record])%list self))%ins.

End Inserter.

(** ** parse_dbms_params *)

Definition is_digit (c : ascii) : bool :=
  ((48 <=? ord c) && (ord c <=? 57))%nat.

(** The digits of an [int] literal: decimal digits, single underscores
    allowed between two digits. *)
Fixpoint int_digits (s : string) (acc : Z) (after_digit : bool) : option Z :=
  match s with
  | EmptyString => if after_digit then Some acc else None
  | String c s' =>
      if is_digit c
      then int_digits s' (acc * 10 + Z.of_nat (ord c - 48)) true
      else if (c =? "_")%char && after_digit then int_digits s' acc false
      else None
  end.

(** The whitespace [int] allows around the number: the ASCII whitespace
    (tab to carriage return, space) and, of the code points above 127, the
    two Unicode spaces; the separators 28 to 31, which [str.strip] removes,
    are refused. *)
Definition is_int_space (c : ascii) : bool :=
  let n := ord c in
  ((9 <=? n) && (n <=? 13) || (n =? 32) || (n =? 133) || (n =? 160))%nat.

Fixpoint int_lstrip (s : string) : string :=
  match s with
  | String c s' => if is_int_space c then int_lstrip s' else s
  | EmptyString => EmptyString
  end.

Fixpoint int_rstrip (s : string) : string :=
  match s with
  | String c s' =>
      match int_rstrip s' with
      | EmptyString => if is_int_space c then EmptyString else str1 c
      | r => String c r
      end
  | EmptyString => EmptyString
  end.

(** [int(s)] for a [str]: surrounding whitespace, an optional sign, digits. *)
Definition py_int (s : string) : Res Z :=
  let body := int_rstrip (int_lstrip s) in
  let '(negative, digits) :=
    match body with
    | String c rest =>
        if (c =? "-")%char then (true, rest)
        else if (c =? "+")%char then (false, rest)
        else (false, body)
    | EmptyString => (false, body)
    end in
  match int_digits digits 0 false with
  | Some n => Ok (if negative : bool then - n else n)
  | None => Raise (ValueError (InvalidInt s))
  end.

(** The functions found in the [conn_parm_names] tables. *)
Inductive converter : Type := conv_str | conv_int | conv_parse_bool.

Definition convert (f : converter) (value : string) : Res pyval :=
  match f with
  | conv_str => Ok (VStr value)
  | conv_int => res_bind (py_int value) (fun n => Ok (VInt n))
  | conv_parse_bool => res_bind (parse_bool value) (fun b => Ok (VBool b))
  end.

Definition conn_parm_names (cls : dbms_class) : gmap string converter :=
  match cls with
  | MySQL =>
      {[ "database" := conv_str; "host" := conv_str; "password" := conv_str;
         "port" := conv_int; "user" := conv_str ]}
  | SQLite =>
      {[ "create" := conv_parse_bool; "filename" := conv_str;
         "write" := conv_parse_bool ]}
  end.

(** [sorted] on strings: insertion into an ascending list. *)
Fixpoint insert_sorted (x : string) (l : list string) : list string :=
  match l with
  | [] => [x]
  | y :: l' => if String.leb x y then x :: l else y :: insert_sorted x l'
  end.

Definition sorted (l : list string) : list string :=
  fold_right insert_sorted [] l.

(** The call of [dbms_class] on the keyword arguments [conn_params] that
    the function ends with. *)
Record connect_call : Type := {
  call_class : dbms_class;
  call_kwargs : gmap string pyval
}.

Section Params.

(** [getpass.getpass(prompt = ...)]: what the user types. *)
Variable getpass : string -> string.

(** One round of [for item in items[1:]]. *)
Definition param_step (dbms_class : dbms_class)
           (st : gmap string pyval * gset string) (item : string)
  : Res (gmap string pyval * gset string) :=
  let '(conn_params, unrecognized) := st in
  match split1 "=" item with
  | [keyword; value] =>
      match conn_parm_names dbms_class !! keyword with
      | Some f =>
          if negb (String.eqb keyword "create")
          then res_bind (convert f value)
                        (fun v => Ok (<[keyword := v]> conn_params, unrecognized))
          else Ok (conn_params, {[ keyword ]} ∪ unrecognized)
      | None => Ok (conn_params, {[ keyword ]} ∪ unrecognized)
      end
  | pieces => Raise (ValueError (UnpackError (length pieces)))
  end.

Fixpoint param_loop (dbms_class : dbms_class) (items : list string)
         (st : gmap string pyval * gset string)
  : Res (gmap string pyval * gset string) :=
  match items with
  | [] => Ok st
  | item :: items' =>
      res_bind (param_step dbms_class st item) (param_loop dbms_class items')
  end.

Definition parse_dbms_params (paramsstr doing_what : string) : Res connect_call :=
  let items := split ":" paramsstr in
  match items with
  | [] => Raise (GetoptError (NeedDBMS doing_what))
  | dbmstype :: rest =>
      match DBMSClasses !! dbmstype with
      | None => Raise (GetoptError (UnrecognizedDBMS dbmstype doing_what))
      | Some dbms_class =>
          res_bind (param_loop dbms_class rest (∅, ∅))
            (fun '(conn_params, unrecognized) =>
               if negb (size unrecognized =? 0)%nat then
                 Raise (GetoptError
                          (UnrecognizedParams
                             dbmstype
                             (String.concat "," (sorted (elements unrecognized)))
                             doing_what))
               else
                 let conn_params :=
                   match conn_params !! "password" with
                   | Some (VStr EmptyString) =>
                       let prompt :=
                         dbmstype ++ " password"
                         ++ match conn_params !! "database" with
                            | Some db => " for " ++ py_str db
                            | None => ""
                            end
                         ++ ": " in
                       <["password" := VStr (getpass prompt)]> conn_params
                   | _ => conn_params
                   end in
                 Ok {| call_class := dbms_class; call_kwargs := conn_params |})
      end
  end.

End Params.

(** ** Definitions used to state the properties *)

(** The substitution table of the MySQL literal syntax, as the
    specification lists it: the character and what replaces it. *)
Definition mysql_substitutions : list (ascii * string) :=
  [ (chr 0, "\0"); (chr 8, "\b"); (chr 9, "\t"); (chr 10, "\n");
    (chr 13, "\r"); (chr 26, "\z");
    (squote, String backslash (str1 squote));
    (dquote, String backslash (str1 dquote));
    (backslash, String backslash (str1 backslash)) ].

Fixpoint substitute (table : list (ascii * string)) (c : ascii) : string :=
  match table with
  | [] => str1 c
  | (k, r) :: table' => if (c =? k)%char then r else substitute table' c
  end.

(** The value of an uppercase hexadecimal digit. *)
Definition hex_value (c : ascii) : option N :=
  let n := ord c in
  if ((48 <=? n) && (n <=? 57))%nat then Some (N.of_nat (n - 48))
  else if ((65 <=? n) && (n <=? 70))%nat then Some (N.of_nat (n - 55))
  else None.

(** The value of a two-digit uppercase hexadecimal numeral. *)
Definition hex_pair_value (s : string) : option N :=
  match s with
  | String hi (String lo EmptyString) =>
      match hex_value hi, hex_value lo with
      | Some h, Some l => Some (16 * h + l)%N
      | _, _ => None
      end
  | _ => None
  end.

(** The first characters [parse_bool] takes for true and for false. *)
Definition true_initials : list ascii := ["y"; "Y"; "t"; "T"; "1"]%char.
Definition false_initials : list ascii := ["n"; "N"; "f"; "F"; "0"]%char.

Definition starts_with_one_of (l : list ascii) (c : ascii) : bool :=
  existsb (Ascii.eqb c) l.

(** One value-tuple of an INSERT statement. *)
Definition tuple_text (this_record : list string) : string :=
  " (" ++ String.concat ", " this_record ++ ")".

(** The INSERT statement in one piece: keyword, optional [ignore], table,
    field list, then the value-tuples separated by commas. *)
Definition insert_text (ignore : bool) (table : string) (names : list string)
           (rows : list (list string)) : string :=
  "insert" ++ (if ignore then " ignore" else "") ++ " into " ++ table
  ++ " (" ++ String.concat ", " names ++ ") values"
  ++ String.concat "," (map tuple_text rows).

(** A caller of a [BulkInserter]: the method calls it makes, in order.  An
    exception does not end the run, the caller may catch it and go on. *)
Inductive call : Type :=
| AddRecord (field_values : record_arg)
| DoneInsert.

Definition run_call (refuses : trace -> string -> bool) (c : call) : M unit :=
  match c with
  | AddRecord r => add_record refuses r
  | DoneInsert => done_insert refuses
  end.

Fixpoint run_calls (refuses : trace -> string -> bool) (cs : list call)
         (st : BulkInserter * trace) : BulkInserter * trace :=
  match cs with
  | [] => st
  | c :: cs' => run_calls refuses cs' (snd (run_call refuses c st))
  end.

(** A server that accepts every statement. *)
Definition accepts_all : trace -> string -> bool := fun _ _ => false.

(** The inserter built by [__init__], later in its life: only the cursor
    and the buffer have changed. *)
Definition inserter_at (conn : DBMS) (table : string) (names : list string)
           (ignore : bool) (c : option nat) (buffer : list (list string))
  : BulkInserter :=
  {| sql := conn; cursor := c; table_name := table; field_names := names;
     ignore_duplicates := ignore; insert_limit := 500; field_values := buffer |}.

(** What holds of the inserter between two calls: it is the one built by
    [__init__] up to cursor and buffer, the buffer is within the ceiling,
    and a cursor is at hand whenever the buffer is not empty. *)
Definition steady_inserter (conn : DBMS) (table : string) (names : list string)
           (ignore : bool) (st : BulkInserter * trace) : Prop :=
  exists c buffer,
    fst st = inserter_at conn table names ignore c buffer
    /\ (length buffer <= 500)%nat
    /\ (buffer = [] \/ is_Some c).

(** The cursor [add_record] works with once its first two [if]s are
    passed. *)
Definition ensure_cursor (st : BulkInserter * trace) : BulkInserter * trace :=
  match cursor (fst st) with
  | None => (set_cursor (Some (opened (snd st))) (fst st),
             (snd st ++ [OpenCursor (opened (snd st))])%list)
  | Some _ => st
  end.

(** The last part of [add_record]: cursor, escaping, append. *)
Definition buffer_record (r : record_arg) (st : BulkInserter * trace)
  : Res unit * (BulkInserter * trace) :=
  let st := ensure_cursor st in
  match build_record (fst st) r with
  | Ok this_record =>
      (Ok tt, (set_field_values (field_values (fst st) ++ [this_record])%list (fst st),
               snd st))
  | Raise e => (Raise e, st)
  end.

(** Sample callers, used to run the inserter on concrete input. *)
Definition mysql_backend : DBMS := backend py_str MySQL.

Definition sample_records : list record_arg := repeat (AsSeq [VInt 1]) 500.

Definition sample_rows : list (list string) :=
  repeat [MySQLDBMS.string (VInt 1)] 500.

(** A fresh inserter after 500 calls of [add_record] and nothing else. *)
Definition after_500_records : BulkInserter * trace :=
  run_calls accepts_all (map AddRecord sample_records)
            (__init__ mysql_backend "T" ["a"] false, []).

(** A text between double quotes. *)
Definition quoted (s : string) : string := str1 dquote ++ s ++ str1 dquote.

(** Grouping of key rows: consecutive rows with one key name make a group.
    [group_aux name cur rows] continues the group [cur], whose rows carry
    [name], into [rows]. *)
Fixpoint group_aux (name : string) (cur : list key_row) (rows : list key_row)
  : list (list key_row) :=
  match rows with
  | [] => [cur]
  | r :: rows' =>
      if String.eqb (kr_key_name r) name
      then group_aux name (cur ++ [r])%list rows'
      else cur :: group_aux (kr_key_name r) [r] rows'
  end.

Definition group_rows (rows : list key_row) : list (list key_row) :=
  match rows with
  | [] => []
  | r :: rows' => group_aux (kr_key_name r) [r] rows'
  end.

(** The sequence numbers of [g] are k, k+1, k+2, ... *)
Fixpoint runs_from (k : Z) (g : list key_row) : bool :=
  match g with
  | [] => true
  | r :: g' => (kr_seq_in_index r =? k)%Z && runs_from (k + 1) g'
  end.

(** The sequence numbers of a group are 1, 2, 3, ... *)
Definition in_sequence (g : list key_row) : bool := runs_from 1 g.

(** The descriptor of a group of rows: name and uniqueness of its first
    row, the column of every row in order. *)
Definition entry_of (g : list key_row) : key_descriptor :=
  match g with
  | [] => {| key_name := ""; unique := false; fields := [] |}
  | r :: _ => {| key_name := kr_key_name r;
                 unique := (kr_non_unique r =? 0)%Z;
                 fields := map kr_column_name g |}
  end.

Fixpoint take_while {A} (p : A -> bool) (l : list A) : list A :=
  match l with
  | x :: l' => if p x then x :: take_while p l' else []
  | [] => []
  end.

(** What the loop of [iter_keys] does with the groups of its rows when the
    generator of the rows ends normally: the descriptors of the groups
    before the first one out of sequence, then the end of the rows or the
    failed assertion. *)
Definition keys_of_groups (groups : list (list key_row)) : gen key_descriptor :=
  (map entry_of (take_while in_sequence groups),
   if forallb in_sequence groups then Exhausted
   else Raised (AssertionError MySQLDBMS.assert_msg)).

(** Two neighbouring groups never carry the same key name. *)
Fixpoint names_change (groups : list (list key_row)) : Prop :=
  match groups with
  | g :: ((g' :: _) as rest) =>
      key_name (entry_of g) <> key_name (entry_of g') /\ names_change rest
  | _ => True
  end.

(** A group is not empty and its rows carry one key name. *)
Definition one_key (g : list key_row) : Prop :=
  g <> [] /\ Forall (fun r => kr_key_name r = key_name (entry_of g)) g.

(** A MySQL server with one table [t]: a NOT NULL primary key [id], a
    nullable column [note] and a two-column unique key. *)
Definition sample_server : mysql_server :=
  {| show_tables := ["t"];
     show_keys_from := fun table =>
       if String.eqb table "t" then
         [ {| kr_table := "t"; kr_non_unique := 0; kr_key_name := "PRIMARY";
              kr_seq_in_index := 1; kr_column_name := "id" |};
           {| kr_table := "t"; kr_non_unique := 0; kr_key_name := "by_note";
              kr_seq_in_index := 1; kr_column_name := "note" |};
           {| kr_table := "t"; kr_non_unique := 0; kr_key_name := "by_note";
              kr_seq_in_index := 2; kr_column_name := "id" |} ]
       else [];
     show_columns_from := fun table =>
       if String.eqb table "t" then
         [ {| cr_field := "id"; cr_type := "int(11)"; cr_null := "NO";
              cr_key := "PRI"; cr_default := VNone; cr_extra := "auto_increment" |};
           {| cr_field := "note"; cr_type := "text"; cr_null := "YES";
              cr_key := "MUL"; cr_default := VNone; cr_extra := "" |} ]
       else [] |}.

(** An SQLite database with the same table [t], a table [t1] without any
    index and a table [t2] with one partial unique index. *)
Definition sample_database : sqlite_database :=
  {| sqlite_master :=
       [ {| m_type := "table"; m_name := "t"; m_tbl_name := "t";
            m_sql := Some "CREATE TABLE t (id integer primary key not null, note text)" |};
         {| m_type := "table"; m_name := "t1"; m_tbl_name := "t1";
            m_sql := Some "CREATE TABLE t1 (a)" |};
         {| m_type := "table"; m_name := "t2"; m_tbl_name := "t2";
            m_sql := Some "CREATE TABLE t2 (x, y)" |};
         {| m_type := "index"; m_name := "i2"; m_tbl_name := "t2";
            m_sql := Some "CREATE UNIQUE INDEX i2 ON t2 (x , y) where x > 0" |} ];
     table_info := fun table =>
       if String.eqb table "t" then
         [ {| ti_cid := 0; ti_name := "id"; ti_type := "integer"; ti_notnull := 1;
              ti_dflt_value := VNone; ti_pk := 1 |};
           {| ti_cid := 1; ti_name := "note"; ti_type := "text"; ti_notnull := 0;
              ti_dflt_value := VNone; ti_pk := 0 |} ]
       else [] |}.

(** What one [key=value] item of the parameter string amounts to. *)
Inductive item_kind : Type :=
| Malformed (pieces : nat)              (* no [=] in the item *)
| BadValue (e : exn)                    (* the converter refused the value *)
| Unrecognized (keyword : string)       (* not in the table, or [create] *)
| Good (keyword : string) (v : pyval).

Definition classify (cls : dbms_class) (item : string) : item_kind :=
  match split1 "=" item with
  | [keyword; value] =>
      match conn_parm_names cls !! keyword with
      | Some f =>
          if String.eqb keyword "create" then Unrecognized keyword
          else match convert f value with
               | Ok v => Good keyword v
               | Raise e => BadValue e
               end
      | None => Unrecognized keyword
      end
  | pieces => Malformed (length pieces)
  end.

Definition is_good (k : item_kind) : bool :=
  match k with Good _ _ => true | _ => false end.

Definition is_unrecognized (k : item_kind) : bool :=
  match k with Unrecognized _ => true | _ => false end.

(** The keyword arguments gathered from the good items, a later item
    replacing an earlier one with the same keyword. *)
Definition gather (cls : dbms_class) (items : list string) (m : gmap string pyval)
  : gmap string pyval :=
  fold_left (fun m item =>
               match classify cls item with
               | Good keyword v => <[keyword := v]> m
               | _ => m
               end)
            items m.

Definition kwargs_of (cls : dbms_class) (items : list string) : gmap string pyval :=
  gather cls items ∅.

(** The items the loop of [parse_dbms_params] gets through. *)
Definition passes (cls : dbms_class) (item : string) : bool :=
  is_good (classify cls item) || is_unrecognized (classify cls item).

(** No [=] in a keyword. *)
Definition plain_keyword (keyword : string) : bool :=
  forallb (fun c => negb (c =? "=")%char) (list_ascii_of_string keyword).

(** The prompt shown when the password is given empty. *)
Definition password_prompt (dbmstype : string) (conn_params : gmap string pyval)
  : string :=
  dbmstype ++ " password"
  ++ match conn_params !! "database" with
     | Some db => " for " ++ py_str db
     | None => ""
     end
  ++ ": ".

(** The empty password replaced by what the user types. *)
Definition resolve_password (getpass : string -> string) (dbmstype : string)
           (conn_params : gmap string pyval) : gmap string pyval :=
  match conn_params !! "password" with
  | Some (VStr EmptyString) =>
      <["password" := VStr (getpass (password_prompt dbmstype conn_params))]> conn_params
  | _ => conn_params
  end.

(** Every character of [s] satisfies [p]. *)
Definition all_chars (p : ascii -> bool) (s : string) : bool :=
  forallb p (list_ascii_of_string s).

(** The same text up to the case of its letters. *)
Fixpoint same_ci (a b : string) : bool :=
  match a, b with
  | EmptyString, EmptyString => true
  | String x a', String y b' => (lower_char x =? lower_char y)%char && same_ci a' b'
  | _, _ => false
  end.

(** The last character of [s], if any, is not whitespace. *)
Fixpoint ends_well (s : string) : bool :=
  match s with
  | EmptyString => true
  | String c EmptyString => negb (is_space c)
  | String _ s' => ends_well s'
  end.

(** No whitespace at either end. *)
Definition trimmed (s : string) : bool :=
  match s with
  | EmptyString => true
  | String c _ => negb (is_space c) && ends_well s
  end.

(** A field of an index definition as it is written: the name between two
    runs of whitespace. *)
Record written_field : Type := {
  before : string;
  field : string;
  after : string
}.

Definition field_text (f : written_field) : string :=
  before f ++ field f ++ after f.

Definition not_among (l : list ascii) (c : ascii) : bool :=
  negb (existsb (Ascii.eqb c) l).

Definition well_written (f : written_field) : bool :=
  all_chars is_space (before f) && all_chars is_space (after f)
  && trimmed (field f) && all_chars (not_among [","; ")"]%char) (field f).

(** The text of an index definition: the four keywords in whatever case,
    the name, the table, the fields between parentheses, then anything. *)
Definition index_ddl (kw_create kw_unique kw_index kw_on : string) (is_unique : bool)
           (name table gap : string) (fs : list written_field) (tail : string)
  : string :=
  kw_create ++ (if is_unique then kw_unique else "") ++ kw_index ++ name
  ++ kw_on ++ table ++ gap ++ "(" ++ String.concat "," (map field_text fs)
  ++ ")" ++ tail.

(** A greedy run stops where the text runs out or at the first character
    outside the class. *)
Definition stops (p : ascii -> bool) (rest : string) : bool :=
  match rest with
  | EmptyString => true
  | String c _ => negb (p c)
  end.

(** ** Reading literals back *)

(** The character a backslash sequence of a MySQL literal stands for. *)
Definition unescape_char (x : ascii) : ascii :=
  if (x =? "0")%char then chr 0
  else if (x =? "b")%char then chr 8
  else if (x =? "t")%char then chr 9
  else if (x =? "n")%char then chr 10
  else if (x =? "r")%char then chr 13
  else if (x =? "z")%char then chr 26
  else x.

Definition prepend (c : ascii) (r : option (string * string))
  : option (string * string) :=
  match r with
  | Some (text, rest) => Some (String c text, rest)
  | None => None
  end.

(** Reads a double-quoted literal after its opening quote: a backslash
    takes the next character with it, the first double quote outside such
    a pair closes the literal.  The result is the text read and what
    follows the closing quote. *)
Fixpoint read_quoted_body (s : string) : option (string * string) :=
  match s with
  | EmptyString => None
  | String c s' =>
      if (c =? dquote)%char then Some (EmptyString, s')
      else if (c =? backslash)%char then
        match s' with
        | String x s'' => prepend (unescape_char x) (read_quoted_body s'')
        | EmptyString => None
        end
      else prepend c (read_quoted_body s')
  end.

Definition read_quoted (s : string) : option (string * string) :=
  match s with
  | String q s' => if (q =? dquote)%char then read_quoted_body s' else None
  | EmptyString => None
  end.

(** Reads the hexadecimal pairs of a blob literal up to its closing quote. *)
Fixpoint read_hex_pairs (s : string) : option (list byte * string) :=
  match s with
  | EmptyString => None
  | String c s' =>
      if (c =? squote)%char then Some ([], s')
      else
        match s' with
        | String d s'' =>
            match hex_pair_value (String c (String d EmptyString)) with
            | Some n =>
                match Byte.of_N n, read_hex_pairs s'' with
                | Some b, Some (bs, rest) => Some (b :: bs, rest)
                | _, _ => None
                end
            | None => None
            end
        | EmptyString => None
        end
  end.

(** Reads a blob literal [X'..']. *)
Definition read_blob (s : string) : option (list byte * string) :=
  match s with
  | String x (String q s') =>
      if ((x =? "X") && (q =? squote))%char then read_hex_pairs s' else None
  | _ => None
  end.

(** ** Index definitions *)

(** An index definition as it is written in [sqlite_master]. *)
Record index_def : Type := {
  kw_create : string;
  kw_unique : string;
  kw_index : string;
  kw_on : string;
  is_unique : bool;
  index_name : string;
  on_table : string;
  gap : string;
  written : list written_field;
  trailing : string
}.

Definition ddl_of (d : index_def) : string :=
  index_ddl (kw_create d) (kw_unique d) (kw_index d) (kw_on d) (is_unique d)
            (index_name d) (on_table d) (gap d) (written d) (trailing d).

(** The keywords are the expected ones up to case, name and table are
    words, only whitespace stands before the parenthesis, and the fields
    are well written and make a text that is not empty. *)
Definition well_formed (d : index_def) : bool :=
  same_ci "create" (kw_create d) && same_ci " unique" (kw_unique d)
  && same_ci " index " (kw_index d) && same_ci " on " (kw_on d)
  && negb (String.eqb (index_name d) "") && all_chars is_word (index_name d)
  && negb (String.eqb (on_table d) "") && all_chars is_word (on_table d)
  && all_chars is_space (gap d)
  && forallb well_written (written d)
  && negb (String.eqb (String.concat "," (map field_text (written d))) "").

(** The descriptor of an index definition. *)
Definition key_of_def (d : index_def) : key_descriptor :=
  {| key_name := index_name d; unique := is_unique d;
     fields := map field (written d) |}.

(** The partial unique index of [sample_database]. *)
Definition sample_index : index_def :=
  {| kw_create := "CREATE"; kw_unique := " UNIQUE"; kw_index := " INDEX ";
     kw_on := " ON "; is_unique := true; index_name := "i2"; on_table := "t2";
     gap := " ";
     written := [ {| before := ""; field := "x"; after := " " |};
                  {| before := " "; field := "y"; after := "" |} ];
     trailing := " where x > 0" |}.

(** ** Batches *)

(** Cuts [l] into pieces of [n] items, the last one possibly shorter;
    [cur] is the piece being filled. *)
Fixpoint chunk_aux {A} (n : nat) (cur : list A) (l : list A) : list (list A) :=
  match l with
  | [] => match cur with [] => [] | _ :: _ => [cur] end
  | x :: l' =>
      if (length cur =? n)%nat then cur :: chunk_aux n [x] l'
      else chunk_aux n (cur ++ [x])%list l'
  end.

Definition chunks {A} (n : nat) (l : list A) : list (list A) := chunk_aux n [] l.

(** Every piece but the last holds exactly [n] items. *)
Fixpoint full_but_last {A} (n : nat) (cs : list (list A)) : Prop :=
  match cs with
  | c :: ((_ :: _) as rest) => length c = n /\ full_but_last n rest
  | _ => True
  end.

(** ** Open cursors *)

(** The cursors open after one more event. *)
Definition track (open : list nat) (ev : event) : list nat :=
  match ev with
  | OpenCursor c => (open ++ [c])%list
  | CloseCursor c => List.filter (fun x => negb (x =? c)%nat) open
  | _ => open
  end.

(** The cursors a trace has opened and not closed since. *)
Definition still_open (t : trace) : list nat := fold_left track t [].

(** The cursor an inserter holds, as a list. *)
Definition held (self : BulkInserter) : list nat :=
  match cursor self with
  | Some c => [c]
  | None => []
  end.

(** Steady, and the open cursors are the one the inserter holds. *)
Definition tidy_inserter (conn : DBMS) (table : string) (names : list string)
           (ignore : bool) (st : BulkInserter * trace) : Prop :=
  exists c buffer,
    fst st = inserter_at conn table names ignore c buffer
    /\ (length buffer <= 500)%nat
    /\ (buffer = [] \/ is_Some c)
    /\ still_open (snd st) = held (fst st).

(** ** Keyword arguments *)

(** The type of value each converter gives. *)
Definition has_type (f : converter) (v : pyval) : bool :=
  match f, v with
  | conv_str, VStr _ => true
  | conv_int, VInt _ => true
  | conv_parse_bool, VBool _ => true
  | _, _ => false
  end.

(** The empty text. *)
Definition is_empty_text (v : pyval) : bool :=
  match v with
  | VStr EmptyString => true
  | _ => false
  end.

(** No item of [items] gives a value to [keyword]. *)
Definition not_given (cls : dbms_class) (keyword : string) (items : list string)
  : bool :=
  forallb (fun item =>
             match classify cls item with
             | Good k _ => negb (String.eqb k keyword)
             | _ => true
             end)
          items.

(** The flags of SQLite as its header file gives them. *)
Definition sqlite_flags : open_flags :=
  {| SQLITE_OPEN_READONLY := 1; SQLITE_OPEN_READWRITE := 2; SQLITE_OPEN_CREATE := 4 |}.

(** The keyword arguments hold converted values of keys of the table. *)
Definition from_table (cls : dbms_class) (m : gmap string pyval) : Prop :=
  forall (k : string) (v : pyval),
    m !! k = Some v ->
    k <> "create"
    /\ exists f, conn_parm_names cls !! k = Some f /\ has_type f v = true.

(** The call that "mysql:host=localhost:port=3306:user=x" leads to. *)
Definition sample_call : connect_call :=
  {| call_class := MySQL;
     call_kwargs := {[ "host" := VStr "localhost"; "port" := VInt 3306;
                       "user" := VStr "x" ]} |}.

(** The call that "sqlite:filename=x.db:write=no" leads to. *)
Definition sample_sqlite_call : connect_call :=
  {| call_class := SQLite;
     call_kwargs := {[ "filename" := VStr "x.db"; "write" := VBool false ]} |}.

(** * Properties *)

(** ** Loops as list functions *)

Lemma fold_left_snoc {A B} (f : A -> B) (l : list A) (acc : list B) :
  fold_left (fun result x => (result ++ [f x])%list) l acc = (acc ++ map f l)%list.
Proof.
  revert acc; induction l as [|x l IH]; intros acc; simpl.
  - now rewrite app_nil_r.
  - rewrite IH, <- app_assoc. reflexivity.
Qed.

Lemma collect_total {A B} (f : A -> B) (l : list A) (acc : list B) :
  collect (fun x => Ok (f x)) l acc = Ok (acc ++ map f l)%list.
Proof.
  revert acc; induction l as [|x l IH]; intros acc; simpl.
  - now rewrite app_nil_r.
  - rewrite IH, <- app_assoc. reflexivity.
Qed.

(** ** MySQLDBMS.string *)

Lemma escape_char_table (ch : ascii) :
  MySQLDBMS.escape_char ch = substitute mysql_substitutions ch.
Proof.
  destruct ch as [[] [] [] [] [] [] [] []]; reflexivity.
Qed.

Lemma hex2_value (i : byte) : hex_pair_value (MySQLDBMS.hex2 i) = Some (Byte.to_N i).
Proof. destruct i; reflexivity. Qed.

(** C1: under the MySQL dialect the literal of None is the text null; the
    literal of a byte sequence is X'..' around one two-digit uppercase
    hexadecimal numeral per byte, whose value is the byte (DE AD for the
    bytes 0xDE 0xAD); the literal of any other value is its string form
    between double quotes, where each character is replaced as the
    substitution table says (NUL, backspace, tab, newline, carriage return
    and 0x1A by backslash and 0, b, t, n, r, z; the two quotes and the
    backslash by a backslash and themselves) and every other character is
    kept. *)
Theorem mysql_string_literal :
  MySQLDBMS.string VNone = "null"
  /\ MySQLDBMS.string (VBytes [xde; xad]) = "X'DEAD'"
  /\ (forall i : byte, hex_pair_value (MySQLDBMS.hex2 i) = Some (Byte.to_N i))
  /\ (forall s : pyval,
        MySQLDBMS.string s =
          match s with
          | VNone => "null"
          | VBytes bs => "X'" ++ String.concat "" (map MySQLDBMS.hex2 bs) ++ "'"
          | _ =>
              str1 dquote
              ++ String.concat ""
                   (map (substitute mysql_substitutions)
                        (list_ascii_of_string (py_str s)))
              ++ str1 dquote
          end)
  /\ (forall c : ascii,
        substitute mysql_substitutions c =
          if (c =? chr 0)%char then "\0"
          else if (c =? chr 8)%char then "\b"
          else if (c =? chr 9)%char then "\t"
          else if (c =? chr 10)%char then "\n"
          else if (c =? chr 13)%char then "\r"
          else if (c =? chr 26)%char then "\z"
          else if (c =? "'")%char then "\'"
          else if (c =? dquote)%char then String "\" (str1 dquote)
          else if (c =? "\")%char then "\\"
          else str1 c).
Proof.
  split; [reflexivity|]. split; [reflexivity|]. split; [exact hex2_value|].
  split.
  - intros s.
    assert (Hq : forall t : string,
               str1 dquote
               ++ String.concat ""
                    (fold_left
                       (fun result ch => (result ++ [MySQLDBMS.escape_char ch])%list)
                       (list_ascii_of_string t) [])
               ++ str1 dquote
               = str1 dquote
                 ++ String.concat ""
                      (map (substitute mysql_substitutions) (list_ascii_of_string t))
                 ++ str1 dquote).
    { intros t. rewrite fold_left_snoc, app_nil_l.
      now rewrite (map_ext _ _ escape_char_table). }
    destruct s; try reflexivity; apply Hq.
  - intros c. destruct c as [[] [] [] [] [] [] [] []]; reflexivity.
Qed.

(** ** parse_bool *)

(** C10: parse_bool looks at the first character only, whatever its case:
    y, t or 1 give True, n, f or 0 give False (so yellow gives True), any
    other first character raises ValueError, and the empty string raises
    IndexError. *)
Theorem parse_bool_first_character :
  parse_bool "" = Raise IndexError
  /\ parse_bool "yellow" = Ok true
  /\ (forall (c : ascii) (rest : string),
        parse_bool (String c rest) =
          if starts_with_one_of true_initials c then Ok true
          else if starts_with_one_of false_initials c then Ok false
          else Raise (ValueError (InvalidBool (str1 (lower_char c))))).
Proof.
  split; [reflexivity|]. split; [reflexivity|].
  intros c rest. destruct c as [[] [] [] [] [] [] [] []]; reflexivity.
Qed.

(** ** BulkInserter *)

Lemma append_cons (c : ascii) (a b : string) : String c a ++ b = String c (a ++ b).
Proof. reflexivity. Qed.

Lemma append_assoc (a b c : string) : (a ++ b) ++ c = a ++ b ++ c.
Proof.
  induction a as [|x a IH]; [reflexivity|].
  rewrite !append_cons. now rewrite IH.
Qed.

Lemma append_empty_r (a : string) : a ++ "" = a.
Proof.
  induction a as [|x a IH]; [reflexivity|].
  rewrite append_cons. now rewrite IH.
Qed.

Lemma concat_cons2 (sep x y : string) (l : list string) :
  String.concat sep (x :: y :: l) = x ++ sep ++ String.concat sep (y :: l).
Proof. reflexivity. Qed.

(** The loop over the buffer, started after at least one tuple. *)
Lemma insert_loop_more (rows : list (list string)) (acc : string) :
  snd (fold_left
         (fun '(first_insert, insert) this_record =>
            let insert := if first_insert : bool then insert else insert ++ "," in
            (false, insert ++ " (" ++ String.concat ", " this_record ++ ")"))
         rows (false, acc))
  = acc ++ String.concat "" (map (fun r => "," ++ tuple_text r) rows).
Proof.
  revert acc; induction rows as [|r rows IH]; intros acc.
  - simpl. now rewrite append_empty_r.
  - cbn [fold_left]. rewrite IH.
    destruct rows as [|r' rows].
    + cbn [map String.concat]. unfold tuple_text.
      now rewrite ?append_assoc, ?append_empty_r.
    + cbn [map]. rewrite (concat_cons2 "" ("," ++ tuple_text r)). unfold tuple_text.
      now rewrite ?append_assoc.
Qed.

Lemma concat_tuples (r : list string) (rows : list (list string)) :
  String.concat "," (map tuple_text (r :: rows))
  = tuple_text r ++ String.concat "" (map (fun r => "," ++ tuple_text r) rows).
Proof.
  revert r; induction rows as [|r' rows IH]; intros r.
  - cbn [map String.concat]. now rewrite append_empty_r.
  - cbn [map]. rewrite concat_cons2.
    change (tuple_text r' :: map tuple_text rows) with (map tuple_text (r' :: rows)).
    rewrite IH.
    destruct rows as [|r'' rows].
    + cbn [map String.concat]. now rewrite ?append_assoc, ?append_empty_r.
    + cbn [map]. rewrite (concat_cons2 "" ("," ++ tuple_text r')).
      now rewrite ?append_assoc.
Qed.

(** The text built by the loop of [done_insert] is the statement in one
    piece. *)
Lemma build_insert_text (self : BulkInserter) :
  build_insert self
  = insert_text (ignore_duplicates self) (table_name self) (field_names self)
                (field_values self).
Proof.
  unfold build_insert, insert_text.
  destruct (field_values self) as [|r rows].
  - cbn [fold_left snd map String.concat].
    destruct (ignore_duplicates self); now rewrite ?append_assoc, ?append_empty_r.
  - cbn [fold_left]. rewrite insert_loop_more, concat_tuples. unfold tuple_text.
    destruct (ignore_duplicates self); now rewrite ?append_assoc.
Qed.

Section InserterFacts.

Variable refuses : trace -> string -> bool.

(** [done_insert] in one piece. *)
Lemma done_insert_eq (self : BulkInserter) (t : trace) :
  done_insert refuses (self, t) =
    match field_values self with
    | [] => (Ok tt, (self, t))
    | _ :: _ =>
        match cursor self with
        | None => (Raise AttributeError, (self, t))
        | Some c =>
            let insert := build_insert self in
            if refuses t insert
            then (Raise (DatabaseError insert), (self, (t ++ [Failed c insert])%list))
            else (Ok tt, (set_field_values [] (set_cursor None self),
                          (t ++ [Execute c insert; CloseCursor c])%list))
        end
    end.
Proof.
  unfold done_insert, cursor_execute, cursor_close, bind, get_self, get_trace,
    raise, emit, modify_self, ret.
  cbv beta iota zeta delta [fst snd].
  destruct (field_values self) as [|r rows]; [reflexivity|].
  cbv beta iota zeta delta [length Nat.eqb negb].
  destruct (cursor self) as [c|] eqn:Hc; [|reflexivity].
  destruct (refuses t (build_insert self)); cbv beta iota zeta delta [fst snd].
  - reflexivity.
  - rewrite Hc. cbv beta iota zeta delta [fst snd]. now rewrite <- app_assoc.
Qed.

(** [add_record] in one piece. *)
Lemma add_record_eq (r : record_arg) (self : BulkInserter) (t : trace) :
  add_record refuses r (self, t) =
    if (length (field_values self) =? insert_limit self)%nat then
      match done_insert refuses (self, t) with
      | (Ok _, st) => buffer_record r st
      | (Raise e, st) => (Raise e, st)
      end
    else buffer_record r (self, t).
Proof.
  assert (Htail : forall st,
             bind get_self (fun self =>
               bind (when match cursor self with None => true | Some _ => false end
                          (bind sql_cursor (fun c => modify_self (set_cursor (Some c)))))
                 (fun _ => bind get_self (fun self =>
                    bind (lift (build_record self r)) (fun this_record =>
                      modify_self (fun self =>
                        set_field_values (field_values self ++ [this_record])%list self)))))
               st
             = buffer_record r st).
  { intros [s u]. unfold buffer_record, ensure_cursor, when, sql_cursor.
    unfold bind, get_self, get_trace, emit, ret, modify_self, lift.
    cbv beta iota zeta delta [fst snd].
    destruct (cursor s); cbv beta iota zeta delta [fst snd];
      match goal with |- context [build_record ?x r] =>
        destruct (build_record x r) end; reflexivity. }
  unfold add_record. unfold bind at 1. unfold get_self at 1. cbn [fst snd].
  unfold bind at 1. unfold when at 1.
  destruct (length (field_values self) =? insert_limit self)%nat.
  - destruct (done_insert refuses (self, t)) as [[[]|e] st]; [apply Htail|reflexivity].
  - unfold ret at 1. apply Htail.
Qed.

End InserterFacts.

Lemma opened_app (a b : trace) : opened (a ++ b)%list = (opened a + opened b)%nat.
Proof. unfold opened. now rewrite List.filter_app, length_app. Qed.

Lemma executed_app (a b : trace) :
  executed (a ++ b)%list = (executed a ++ executed b)%list.
Proof. unfold executed. apply omap_app. Qed.

Section InserterLife.

Variable refuses : trace -> string -> bool.
Variable conn : DBMS.
Variable table : string.
Variable names : list string.
Variable ignore : bool.

Abbreviation at_ := (inserter_at conn table names ignore).
Abbreviation fresh := (__init__ conn table names ignore).
Abbreviation steady := (steady_inserter conn table names ignore).

Lemma build_record_at (c : option nat) (buffer : list (list string)) (r : record_arg) :
  build_record (at_ c buffer) r = build_record fresh r.
Proof. destruct r; reflexivity. Qed.

Lemma buffer_record_at (r : record_arg) (c : option nat)
      (buffer : list (list string)) (t : trace) :
  buffer_record r (at_ c buffer, t) =
    let c' := match c with None => opened t | Some c => c end in
    let t' := match c with None => (t ++ [OpenCursor (opened t)])%list | Some _ => t end in
    match build_record fresh r with
    | Ok this_record => (Ok tt, (at_ (Some c') (buffer ++ [this_record])%list, t'))
    | Raise e => (Raise e, (at_ (Some c') buffer, t'))
    end.
Proof.
  unfold buffer_record, ensure_cursor.
  destruct c as [c|]; cbn [fst snd cursor inserter_at set_cursor];
    change (build_record _ r) with (build_record (at_ None []) r) at 1;
    rewrite build_record_at; destruct (build_record fresh r); reflexivity.
Qed.

Lemma done_insert_at (c : option nat) (buffer : list (list string)) (t : trace) :
  done_insert refuses (at_ c buffer, t) =
    match buffer, c with
    | [], _ => (Ok tt, (at_ c buffer, t))
    | _ :: _, None => (Raise AttributeError, (at_ c buffer, t))
    | _ :: _, Some n =>
        let insert := insert_text ignore table names buffer in
        if refuses t insert
        then (Raise (DatabaseError insert), (at_ c buffer, (t ++ [Failed n insert])%list))
        else (Ok tt, (at_ None [], (t ++ [Execute n insert; CloseCursor n])%list))
    end.
Proof.
  rewrite done_insert_eq, build_insert_text.
  destruct buffer, c; reflexivity.
Qed.

Lemma steady_fresh (t : trace) : steady (fresh, t).
Proof. exists None, []. repeat split; [simpl; lia | now left]. Qed.

Lemma steady_buffer_record (r : record_arg) (c : option nat)
      (buffer : list (list string)) (t : trace) :
  (length buffer < 500)%nat ->
  steady (snd (buffer_record r (at_ c buffer, t))).
Proof.
  intros Hlt. rewrite buffer_record_at. cbv zeta.
  destruct (build_record fresh r) as [row|e]; cbn [snd fst];
    eexists _, _; (split; [reflexivity|]); split; eauto.
  - rewrite length_app; simpl; lia.
  - lia.
Qed.

Lemma steady_call (c : call) (st : BulkInserter * trace) :
  steady st -> steady (snd (run_call refuses c st)).
Proof.
  destruct st as [self t]. intros (cur & buffer & Hself & Hlen & Hcur).
  cbn [fst] in Hself. subst self.
  destruct c as [r|]; cbn [run_call].
  - rewrite add_record_eq. cbn [field_values insert_limit inserter_at].
    destruct (Nat.eqb_spec (length buffer) 500) as [Hfull|Hroom].
    + rewrite done_insert_at.
      destruct buffer as [|row rows]; [discriminate Hfull|].
      destruct Hcur as [Hnil|[n ->]]; [discriminate Hnil|].
      cbv zeta. destruct (refuses t _).
      * cbn [snd]. exists (Some n), (row :: rows). eauto.
      * apply steady_buffer_record. simpl; lia.
    + apply steady_buffer_record. lia.
  - rewrite done_insert_at.
    destruct buffer as [|row rows]; [|destruct cur as [n|]].
    + cbn [snd]. exists cur, []. eauto.
    + cbv zeta. destruct (refuses t _); cbn [snd].
      * exists (Some n), (row :: rows). eauto.
      * exists None, []. repeat split; [simpl; lia | now left].
    + cbn [snd]. exists None, (row :: rows). eauto.
Qed.

Lemma steady_calls (cs : list call) (st : BulkInserter * trace) :
  steady st -> steady (run_calls refuses cs st).
Proof.
  revert st; induction cs as [|c cs IH]; intros st Hst; [exact Hst|].
  cbn [run_calls]. apply IH, steady_call, Hst.
Qed.

(** Records added while there is room are appended, nothing else happens. *)
Lemma add_records_fill (recs : list record_arg) (rows : list (list string))
      (c : nat) (buffer : list (list string)) (t : trace) :
  map (build_record fresh) recs = map Ok rows ->
  (length buffer + length recs <= 500)%nat ->
  run_calls refuses (map AddRecord recs) (at_ (Some c) buffer, t)
  = (at_ (Some c) (buffer ++ rows)%list, t).
Proof.
  revert rows buffer; induction recs as [|r recs IH]; intros rows buffer Hrows Hlen.
  - destruct rows; [|discriminate Hrows]. cbn [map run_calls]. now rewrite app_nil_r.
  - destruct rows as [|row rows]; [discriminate Hrows|].
    cbn [map] in Hrows. injection Hrows as Hrow Hrows.
    cbn [map run_calls run_call]. rewrite add_record_eq.
    cbn [field_values insert_limit inserter_at length] in *.
    destruct (Nat.eqb_spec (length buffer) 500) as [Hfull|_]; [lia|].
    rewrite buffer_record_at, Hrow. cbv zeta. cbn [snd].
    rewrite (IH rows); [now rewrite <- app_assoc | exact Hrows |].
    rewrite length_app; simpl; lia.
Qed.

End InserterLife.

(** C2, as stated, does not hold: after exactly 500 calls of add_record
    on a fresh inserter the connection has executed no statement at all, so
    it is not the case that exactly one INSERT has been issued. *)
Lemma no_flush_after_500_records :
  ~ (exists stmt : string, executed (snd after_500_records) = [stmt]).
Proof.
  intros [stmt H]. vm_compute in H. discriminate H.
Qed.

(** C2, amended: on a fresh inserter 500 calls of add_record execute nothing
    and leave the 500 escaped rows in the buffer; the 501st call first
    executes exactly one INSERT carrying those 500 value-tuples on the
    cursor opened by the first call, closes that cursor, and only then
    buffers the new record, alone, under a new cursor. *)
Theorem flush_waits_for_record_501
        (refuses : trace -> string -> bool) (conn : DBMS) (table : string)
        (names : list string) (ignore : bool) (t0 : trace)
        (recs : list record_arg) (rows : list (list string))
        (r : record_arg) (this_record : list string) :
  length recs = 500%nat ->
  map (build_record (__init__ conn table names ignore)) recs = map Ok rows ->
  build_record (__init__ conn table names ignore) r = Ok this_record ->
  refuses (t0 ++ [OpenCursor (opened t0)])%list
          (insert_text ignore table names rows) = false ->
  let c0 := opened t0 in
  let insert := insert_text ignore table names rows in
  let st500 :=
    run_calls refuses (map AddRecord recs) (__init__ conn table names ignore, t0) in
  st500 = (inserter_at conn table names ignore (Some c0) rows,
           (t0 ++ [OpenCursor c0])%list)
  /\ executed (snd st500) = executed t0
  /\ length rows = 500%nat
  /\ add_record refuses r st500
     = (Ok tt,
        (inserter_at conn table names ignore (Some (S c0)) [this_record],
         (t0 ++ [OpenCursor c0; Execute c0 insert; CloseCursor c0;
                 OpenCursor (S c0)])%list)).
Proof.
  intros Hlen Hrows Hrow Hacc c0 insert st500.
  assert (Hlen' : length rows = 500%nat).
  { rewrite <- Hlen, <- (length_map (build_record (__init__ conn table names ignore))),
      Hrows. symmetry. apply length_map. }
  assert (H500 : st500 = (inserter_at conn table names ignore (Some c0) rows,
                          (t0 ++ [OpenCursor c0])%list)).
  { subst st500. destruct recs as [|r1 recs]; [discriminate Hlen|].
    destruct rows as [|row1 rows]; [discriminate Hlen'|].
    cbn [map] in Hrows. injection Hrows as Hrow1 Hrows.
    cbn [map run_calls run_call].
    change (__init__ conn table names ignore)
      with (inserter_at conn table names ignore None []) at 1.
    rewrite add_record_eq. cbn [field_values insert_limit inserter_at length Nat.eqb].
    change (buffer_record r1 _)
      with (buffer_record r1 (inserter_at conn table names ignore None [], t0)).
    rewrite buffer_record_at, Hrow1. cbv zeta. cbn [snd app].
    apply (add_records_fill refuses conn table names ignore recs rows); [exact Hrows|].
    simpl in Hlen |- *. lia. }
  split; [exact H500|]. rewrite H500. cbn [snd].
  split.
  { rewrite executed_app. cbn. now rewrite app_nil_r. }
  split; [exact Hlen'|].
  rewrite add_record_eq. cbn [field_values insert_limit inserter_at].
  rewrite Hlen', Nat.eqb_refl, done_insert_at.
  destruct rows as [|row1 rows]; [discriminate Hlen'|].
  subst c0 insert. cbv zeta. rewrite Hacc.
  rewrite buffer_record_at, Hrow. cbv zeta.
  rewrite !opened_app. cbn [opened List.filter is_open length app].
  rewrite <- !app_assoc. cbn [app].
  rewrite !Nat.add_0_r, !Nat.add_1_r.
  reflexivity.
Qed.

Lemma flush_waits_for_record_501_witness :
  length sample_records = 500%nat
  /\ add_record accepts_all (AsSeq [VInt 2]) after_500_records
     = (Ok tt,
        (inserter_at mysql_backend "T" ["a"] false (Some 1%nat)
                     [[MySQLDBMS.string (VInt 2)]],
         [OpenCursor 0; Execute 0 (insert_text false "T" ["a"] sample_rows);
          CloseCursor 0; OpenCursor 1])).
Proof.
  split; [reflexivity|].
  apply (flush_waits_for_record_501
           accepts_all mysql_backend "T" ["a"] false [] sample_records sample_rows
           (AsSeq [VInt 2]) [MySQLDBMS.string (VInt 2)]);
    vm_compute; reflexivity.
Defined.

(** C3: whatever calls of add_record and done_insert follow the
    construction of an inserter, and whether or not some of them raised,
    its buffer holds at most 500 rows, its ceiling being 500; and a call of
    add_record that finds 500 rows in the buffer first executes the INSERT
    of exactly those rows and closes the cursor, then buffers the new
    record alone under a newly opened cursor. *)
Theorem buffer_within_ceiling
        (refuses : trace -> string -> bool) (conn : DBMS) (table : string)
        (names : list string) (ignore : bool) (t0 : trace) (calls : list call) :
  let st := run_calls refuses calls (__init__ conn table names ignore, t0) in
  (length (field_values (fst st)) <= 500)%nat
  /\ insert_limit (fst st) = 500%nat
  /\ (forall (r : record_arg) (this_record : list string),
        length (field_values (fst st)) = 500%nat ->
        build_record (fst st) r = Ok this_record ->
        refuses (snd st)
                (insert_text ignore table names (field_values (fst st))) = false ->
        exists c : nat,
          cursor (fst st) = Some c
          /\ add_record refuses r st
             = (Ok tt,
                (inserter_at conn table names ignore (Some (opened (snd st)))
                             [this_record],
                 (snd st
                  ++ [Execute c (insert_text ignore table names
                                             (field_values (fst st)));
                      CloseCursor c; OpenCursor (opened (snd st))])%list))).
Proof.
  intros st.
  destruct (steady_calls refuses conn table names ignore calls
              (__init__ conn table names ignore, t0)
              (steady_fresh conn table names ignore t0))
    as (cur & buffer & Hself & Hlen & Hcur).
  fold st in Hself. destruct st as [self t]. cbn [fst snd] in *. subst self.
  cbn [field_values insert_limit inserter_at cursor].
  split; [exact Hlen|]. split; [reflexivity|].
  intros r this_record Hfull Hrow Hacc.
  rewrite build_record_at in Hrow.
  destruct buffer as [|row rows]; [discriminate Hfull|].
  destruct Hcur as [Hnil|[c ->]]; [discriminate Hnil|].
  exists c. split; [reflexivity|].
  rewrite add_record_eq. cbn [field_values insert_limit inserter_at].
  rewrite Hfull, Nat.eqb_refl, done_insert_at. cbv zeta. rewrite Hacc.
  rewrite buffer_record_at, Hrow. cbv zeta.
  rewrite opened_app. cbn [opened List.filter is_open length app].
  rewrite Nat.add_0_r, <- app_assoc. reflexivity.
Qed.

Lemma buffer_within_ceiling_witness :
  (length (field_values (fst after_500_records)) <= 500)%nat
  /\ exists c : nat,
       cursor (fst after_500_records) = Some c
       /\ add_record accepts_all (AsSeq [VInt 2]) after_500_records
          = (Ok tt,
             (inserter_at mysql_backend "T" ["a"] false
                          (Some (opened (snd after_500_records)))
                          [[MySQLDBMS.string (VInt 2)]],
              (snd after_500_records
               ++ [Execute c (insert_text false "T" ["a"]
                                          (field_values (fst after_500_records)));
                   CloseCursor c; OpenCursor (opened (snd after_500_records))])%list)).
Proof.
  destruct (buffer_within_ceiling accepts_all mysql_backend "T" ["a"] false []
              (map AddRecord sample_records)) as (Hle & _ & Hfull).
  split; [exact Hle|].
  apply Hfull; vm_compute; reflexivity.
Defined.

(** C4: done_insert changes nothing when the buffer is empty; otherwise,
    the server accepting it, it executes exactly one statement, insert
    [ignore] into table (f1, ..., fn) values (tuple1), (tuple2), ... built
    from the buffered literals as they are, closes the cursor and empties
    the buffer.  With fields a and b, no duplicate-ignore, and the records
    (1,2) and (3,4), that statement is insert into T (a, b) values
    (1, 2), (3, 4) where each number stands for its literal in the dialect
    of the backend. *)
Theorem done_insert_statement (refuses : trace -> string -> bool) :
  (forall (self : BulkInserter) (t : trace),
      field_values self = [] ->
      done_insert refuses (self, t) = (Ok tt, (self, t)))
  /\ (forall (self : BulkInserter) (t : trace) (c : nat),
        field_values self <> [] ->
        cursor self = Some c ->
        let insert :=
          "insert" ++ (if ignore_duplicates self then " ignore" else "")
          ++ " into " ++ table_name self
          ++ " (" ++ String.concat ", " (field_names self) ++ ") values"
          ++ String.concat ","
               (map (fun this_record => " (" ++ String.concat ", " this_record ++ ")")
                    (field_values self)) in
        refuses t insert = false ->
        done_insert refuses (self, t)
        = (Ok tt, (set_field_values [] (set_cursor None self),
                   (t ++ [Execute c insert; CloseCursor c])%list)))
  /\ (forall (conn : DBMS) (t0 : trace),
        let lit := dbms_string conn in
        let insert :=
          "insert into T (a, b) values (" ++ lit (VInt 1) ++ ", " ++ lit (VInt 2)
          ++ "), (" ++ lit (VInt 3) ++ ", " ++ lit (VInt 4) ++ ")" in
        refuses (t0 ++ [OpenCursor (opened t0)])%list insert = false ->
        run_calls refuses
                  [AddRecord (AsSeq [VInt 1; VInt 2]);
                   AddRecord (AsSeq [VInt 3; VInt 4]); DoneInsert]
                  (__init__ conn "T" ["a"; "b"] false, t0)
        = (inserter_at conn "T" ["a"; "b"] false None [],
           (t0 ++ [OpenCursor (opened t0); Execute (opened t0) insert;
                   CloseCursor (opened t0)])%list)).
Proof.
  split; [|split].
  - intros self t Hfv. rewrite done_insert_eq, Hfv. reflexivity.
  - intros self t c Hfv Hc insert Hacc.
    assert (Hins : build_insert self = insert) by apply build_insert_text.
    rewrite done_insert_eq, Hc, Hins. cbv zeta. rewrite Hacc.
    destruct (field_values self); [contradiction|reflexivity].
  - intros conn t0 lit insert Hacc.
    assert (Hins : insert_text false "T" ["a"; "b"]
                     [[lit (VInt 1); lit (VInt 2)]; [lit (VInt 3); lit (VInt 4)]]
                   = insert).
    { unfold insert_text, tuple_text, insert. cbn [map String.concat].
      now rewrite ?append_assoc. }
    cbn [run_calls run_call].
    change (__init__ conn "T" ["a"; "b"] false)
      with (inserter_at conn "T" ["a"; "b"] false None []).
    rewrite add_record_eq. cbn [field_values insert_limit inserter_at length Nat.eqb].
    change (buffer_record ?r _)
      with (buffer_record r (inserter_at conn "T" ["a"; "b"] false None [], t0)).
    rewrite buffer_record_at. cbn [build_record collect res_bind]. cbv zeta.
    cbn [snd app].
    rewrite add_record_eq. cbn [field_values insert_limit inserter_at length Nat.eqb].
    rewrite buffer_record_at. cbn [build_record collect res_bind]. cbv zeta.
    cbn [snd app].
    rewrite done_insert_at. cbv zeta.
    change (dbms_string (sql (__init__ conn "T" ["a"; "b"] false))) with lit.
    rewrite Hins, Hacc. cbn [snd]. now rewrite <- app_assoc.
Qed.

Lemma done_insert_statement_witness :
  done_insert accepts_all
              (inserter_at mysql_backend "T" ["a"] true (Some 7%nat) [["1"]; ["2"]], [])
  = (Ok tt, (inserter_at mysql_backend "T" ["a"] true None [],
             [Execute 7 "insert ignore into T (a) values (1), (2)"; CloseCursor 7]))
  /\ run_calls accepts_all
               [AddRecord (AsSeq [VInt 1; VInt 2]);
                AddRecord (AsSeq [VInt 3; VInt 4]); DoneInsert]
               (__init__ mysql_backend "T" ["a"; "b"] false, [])
     = (inserter_at mysql_backend "T" ["a"; "b"] false None [],
        [OpenCursor 0;
         Execute 0 ("insert into T (a, b) values (" ++ quoted "1" ++ ", "
                    ++ quoted "2" ++ "), (" ++ quoted "3" ++ ", " ++ quoted "4"
                    ++ ")");
         CloseCursor 0]).
Proof.
  destruct (done_insert_statement accepts_all) as (_ & Hflush & Hrun).
  split.
  - apply (Hflush (inserter_at mysql_backend "T" ["a"] true (Some 7%nat) [["1"]; ["2"]])
                  [] 7%nat); [discriminate | reflexivity | reflexivity].
  - apply (Hrun mysql_backend []). reflexivity.
Defined.

(** C8 on the code: with duplicate-ignore enabled the statement starts with
    insert ignore into whatever the backend is, so an inserter bound to the
    SQLite backend sends the MySQL spelling too (SQLite spells the clause
    insert or ignore into); only the literals differ between backends. *)
Theorem insert_ignore_whatever_backend
        (format_sql_value : pyval -> string) (cls : dbms_class) :
  (forall (table : string) (names : list string) (rows : list (list string))
          (c : option nat),
      build_insert (inserter_at (backend format_sql_value cls) table names true c rows)
      = "insert ignore into " ++ table ++ " (" ++ String.concat ", " names
        ++ ") values" ++ String.concat "," (map tuple_text rows))
  /\ run_calls accepts_all [AddRecord (AsSeq [VInt 1]); DoneInsert]
               (__init__ (backend format_sql_value SQLite) "T" ["a"] true, [])
     = (inserter_at (backend format_sql_value SQLite) "T" ["a"] true None [],
        [OpenCursor 0;
         Execute 0 ("insert ignore into T (a) values ("
                    ++ format_sql_value (VInt 1) ++ ")");
         CloseCursor 0]).
Proof.
  split.
  - intros table names rows c. rewrite build_insert_text.
    unfold insert_text. cbn [ignore_duplicates table_name field_names field_values
                               inserter_at].
    now rewrite ?append_assoc.
  - cbn [run_calls run_call].
    change (__init__ ?conn "T" ["a"] true) with (inserter_at conn "T" ["a"] true None []).
    rewrite add_record_eq. cbn [field_values insert_limit inserter_at length Nat.eqb].
    rewrite buffer_record_at. cbn [build_record collect res_bind]. cbv zeta.
    cbn [snd app].
    rewrite done_insert_at. cbv zeta. unfold accepts_all. cbn [snd].
    unfold insert_text, tuple_text. cbn [map String.concat].
    now rewrite ?append_assoc.
Qed.

(** ** MySQLDBMS.iter_keys *)

Lemma runs_from_app (k : Z) (a b : list key_row) :
  runs_from k (a ++ b) = runs_from k a && runs_from (k + Z.of_nat (length a)) b.
Proof.
  revert k; induction a as [|r a IH]; intros k.
  - cbn [app runs_from length andb]. now rewrite Z.add_0_r.
  - cbn [app runs_from length]. rewrite IH, andb_assoc.
    do 2 f_equal. lia.
Qed.

Lemma runs_from_lookup (k : Z) (g : list key_row) :
  runs_from k g = true
  <-> forall (i : nat) (r : key_row),
        g !! i = Some r -> kr_seq_in_index r = k + Z.of_nat i.
Proof.
  revert k; induction g as [|r0 g IH]; intros k; cbn [runs_from].
  - split; [intros _ i r H; discriminate H | reflexivity].
  - rewrite andb_true_iff, Z.eqb_eq, IH. split.
    + intros [H0 Hg] [|i] r Hr.
      * injection Hr as <-. lia.
      * rewrite (Hg i r Hr). lia.
    + intros H. split.
      * rewrite (H 0%nat r0 eq_refl). lia.
      * intros i r Hr. rewrite (H (S i) r Hr). lia.
Qed.

(** The first group continues the rows already gathered. *)
Lemma group_aux_head (rows : list key_row) (name : string) (cur : list key_row) :
  exists (more : list key_row) (groups : list (list key_row)),
    group_aux name cur rows = (cur ++ more)%list :: groups.
Proof.
  revert name cur; induction rows as [|r rows IH]; intros name cur; cbn [group_aux].
  - exists [], []. now rewrite app_nil_r.
  - destruct (String.eqb (kr_key_name r) name).
    + destruct (IH name (cur ++ [r])%list) as (more & groups & ->).
      exists (r :: more), groups. now rewrite <- app_assoc.
    + exists [], (group_aux (kr_key_name r) [r] rows). now rewrite app_nil_r.
Qed.

(** A group that starts out of sequence stops everything. *)
Lemma keys_of_groups_broken (name : string) (cur rows : list key_row) :
  runs_from 1 cur = false ->
  keys_of_groups (group_aux name cur rows)
  = ([], Raised (AssertionError MySQLDBMS.assert_msg)).
Proof.
  intros Hbad. destruct (group_aux_head rows name cur) as (more & groups & ->).
  unfold keys_of_groups, in_sequence. cbn [take_while forallb].
  now rewrite runs_from_app, Hbad.
Qed.

Lemma keys_of_groups_cons (g : list key_row) (groups : list (list key_row)) :
  runs_from 1 g = true ->
  keys_of_groups (g :: groups)
  = (entry_of g :: fst (keys_of_groups groups), snd (keys_of_groups groups)).
Proof.
  intros Hg. unfold keys_of_groups, in_sequence. cbn [take_while forallb].
  now rewrite Hg.
Qed.

Lemma append_field_entry (r0 : key_row) (cur : list key_row) (r : key_row) :
  append_field (entry_of (r0 :: cur)) (kr_column_name r)
  = entry_of ((r0 :: cur) ++ [r]).
Proof.
  unfold append_field. simpl. now rewrite map_app.
Qed.

(** The loop inside a key: the state holds the rows gathered so far. *)
Lemma iter_keys_loop_in_key (rows : list key_row) :
  forall (name : string) (r0 : key_row) (cur : list key_row),
    runs_from 1 (r0 :: cur) = true ->
    MySQLDBMS.iter_keys_loop
      rows Exhausted (InKey name (entry_of (r0 :: cur)) (Z.of_nat (length (r0 :: cur))))
    = keys_of_groups (group_aux name (r0 :: cur) rows).
Proof.
  induction rows as [|r rows IH]; intros name r0 cur Hcur.
  - cbn [MySQLDBMS.iter_keys_loop group_aux].
    rewrite keys_of_groups_cons by exact Hcur. reflexivity.
  - cbn [MySQLDBMS.iter_keys_loop group_aux].
    destruct (String.eqb_spec (kr_key_name r) name) as [Hname|Hname].
    + destruct (Z.eqb_spec (kr_seq_in_index r) (Z.of_nat (length (r0 :: cur)) + 1))
        as [Hseq|Hseq].
      * rewrite append_field_entry, Hname, Hseq.
        replace (Z.of_nat (length (r0 :: cur)) + 1)
          with (Z.of_nat (length ((r0 :: cur) ++ [r])))
          by (rewrite length_app; cbn [length]; lia).
        change ((r0 :: cur) ++ [r])%list with (r0 :: (cur ++ [r]))%list.
        rewrite (IH name r0 (cur ++ [r])%list).
        -- now destruct (keys_of_groups _).
        -- change (r0 :: cur ++ [r])%list with ((r0 :: cur) ++ [r])%list.
           rewrite runs_from_app, Hcur. cbn [runs_from andb].
           rewrite andb_true_r. apply Z.eqb_eq. lia.
      * rewrite keys_of_groups_broken; [reflexivity|].
        rewrite runs_from_app, Hcur. cbn [runs_from andb].
        rewrite andb_true_r. apply Z.eqb_neq. lia.
    + rewrite keys_of_groups_cons by exact Hcur.
      destruct (Z.eqb_spec (kr_seq_in_index r) (0 + 1)) as [Hseq|Hseq].
      * change (append_field _ (kr_column_name r)) with (entry_of [r]).
        rewrite Hseq. change (0 + 1) with (Z.of_nat (length [r])).
        rewrite (IH (kr_key_name r) r []).
        -- reflexivity.
        -- cbn [runs_from]. rewrite Hseq. reflexivity.
      * rewrite keys_of_groups_broken; [reflexivity|].
        cbn [runs_from]. rewrite andb_true_r. apply Z.eqb_neq. exact Hseq.
Qed.

(** The whole loop, from its first round. *)
Lemma iter_keys_loop_groups (rows : list key_row) :
  MySQLDBMS.iter_keys_loop rows Exhausted Start = keys_of_groups (group_rows rows).
Proof.
  destruct rows as [|r rows]; [reflexivity|].
  cbn [MySQLDBMS.iter_keys_loop group_rows].
  destruct (Z.eqb_spec (kr_seq_in_index r) (0 + 1)) as [Hseq|Hseq].
  - change (append_field _ (kr_column_name r)) with (entry_of [r]).
    rewrite Hseq. change (0 + 1) with (Z.of_nat (length [r])).
    rewrite (iter_keys_loop_in_key rows (kr_key_name r) r []).
    + now destruct (keys_of_groups _).
    + cbn [runs_from]. rewrite Hseq. reflexivity.
  - rewrite keys_of_groups_broken; [reflexivity|].
    cbn [runs_from]. rewrite andb_true_r. apply Z.eqb_neq. exact Hseq.
Qed.

Lemma group_aux_concat (rows : list key_row) (name : string) (cur : list key_row) :
  concat (group_aux name cur rows) = (cur ++ rows)%list.
Proof.
  revert name cur; induction rows as [|r rows IH]; intros name cur; cbn [group_aux].
  - cbn [concat]. reflexivity.
  - destruct (String.eqb (kr_key_name r) name).
    + rewrite IH. now rewrite <- app_assoc.
    + cbn [concat]. rewrite IH. reflexivity.
Qed.

Lemma group_aux_one_key (rows : list key_row) :
  forall (name : string) (r0 : key_row) (cur : list key_row),
    Forall (fun r => kr_key_name r = name) (r0 :: cur) ->
    Forall one_key (group_aux name (r0 :: cur) rows).
Proof.
  assert (Hone : forall name r0 cur,
             Forall (fun r => kr_key_name r = name) (r0 :: cur) -> one_key (r0 :: cur)).
  { intros name r0 cur Hall. split; [discriminate|].
    cbn [entry_of key_name]. pose proof (Forall_inv Hall) as H0. cbn beta in H0.
    rewrite H0. exact Hall. }
  induction rows as [|r rows IH]; intros name r0 cur Hall; cbn [group_aux].
  - constructor; [exact (Hone name r0 cur Hall) | constructor].
  - destruct (String.eqb_spec (kr_key_name r) name) as [Hname|Hname].
    + apply (IH name r0 (cur ++ [r])%list).
      change (r0 :: cur ++ [r])%list with ((r0 :: cur) ++ [r])%list.
      apply Forall_app. split; [exact Hall | now constructor].
    + constructor; [exact (Hone name r0 cur Hall)|].
      apply IH. now constructor.
Qed.

Lemma group_aux_names_change (rows : list key_row) :
  forall (name : string) (r0 : key_row) (cur : list key_row),
    kr_key_name r0 = name ->
    names_change (group_aux name (r0 :: cur) rows).
Proof.
  induction rows as [|r rows IH]; intros name r0 cur H0; cbn [group_aux].
  - exact I.
  - destruct (String.eqb_spec (kr_key_name r) name) as [Hname|Hname].
    + apply (IH name r0 (cur ++ [r])%list H0).
    + pose proof (IH (kr_key_name r) r [] eq_refl) as Hrest.
      destruct (group_aux_head rows (kr_key_name r) [r]) as (more & groups & Heq).
      rewrite Heq in Hrest |- *. cbn [app] in *.
      cbn [names_change]. split; [|exact Hrest].
      cbn [entry_of key_name]. congruence.
Qed.

Lemma take_while_incl {A} (p : A -> bool) (l : list A) (x : A) :
  In x (take_while p l) -> In x l.
Proof.
  induction l as [|y l IH]; [intros []|]. cbn [take_while].
  destruct (p y); [|intros []]. intros [->|H]; [now left | right; exact (IH H)].
Qed.

Lemma take_while_all {A} (p : A -> bool) (l : list A) :
  forallb p l = true -> take_while p l = l.
Proof.
  induction l as [|y l IH]; [reflexivity|]. cbn [forallb take_while].
  intros H. apply andb_true_iff in H as [Hy Hl]. now rewrite Hy, (IH Hl).
Qed.

(** [iter] yields the rows, each through [mapfn], and then raises. *)
Lemma mysql_iter_rows {A B} (rows : list A) (mapfn : A -> B) :
  MySQLDBMS.iter rows mapfn
  = (map mapfn rows, Raised (RuntimeError "generator raised StopIteration")).
Proof.
  induction rows as [|row rows IH]; [reflexivity|].
  cbn [MySQLDBMS.iter map]. rewrite IH. reflexivity.
Qed.

Lemma map_removelast {A B} (f : A -> B) (l : list A) :
  removelast (map f l) = map f (removelast l).
Proof.
  induction l as [|x [|y l] IH]; [reflexivity | reflexivity |].
  change (f x :: removelast (map f (y :: l)) = f x :: map f (removelast (y :: l))).
  now rewrite IH.
Qed.

(** Inside a key the loop has an entry in hand: when the rows end normally
    it yields that entry at the latest. *)
Lemma iter_keys_loop_yields (rows : list key_row) :
  forall (name : string) (entry : key_descriptor) (seq : Z),
    snd (MySQLDBMS.iter_keys_loop rows Exhausted (InKey name entry seq)) = Exhausted ->
    fst (MySQLDBMS.iter_keys_loop rows Exhausted (InKey name entry seq)) <> [].
Proof.
  induction rows as [|r rows IH]; intros name entry seq.
  - intros _. discriminate.
  - cbn [MySQLDBMS.iter_keys_loop].
    destruct (String.eqb (kr_key_name r) name).
    + destruct (kr_seq_in_index r =? seq + 1)%Z; cbn [fst snd app]; [|discriminate].
      apply IH.
    + destruct (kr_seq_in_index r =? 0 + 1)%Z; cbn [fst snd app]; discriminate.
Qed.

(** The loop over a generator that ends with an exception, told from the
    loop over the same rows ending normally: the entry in hand at the end
    is not yielded. *)
Lemma iter_keys_loop_raised (e : exn) (rows : list key_row) :
  forall st : keys_loop,
    MySQLDBMS.iter_keys_loop rows (Raised e) st
    = match snd (MySQLDBMS.iter_keys_loop rows Exhausted st) with
      | Exhausted =>
          (removelast (fst (MySQLDBMS.iter_keys_loop rows Exhausted st)), Raised e)
      | Raised a => MySQLDBMS.iter_keys_loop rows Exhausted st
      end.
Proof.
  induction rows as [|r rows IH]; intros st.
  - destruct st; reflexivity.
  - cbn [MySQLDBMS.iter_keys_loop].
    assert (Hstep : forall (yielded : list key_descriptor) (name : string)
                           (entry : key_descriptor) (seq : Z),
               ((yielded ++ fst (MySQLDBMS.iter_keys_loop rows (Raised e)
                                   (InKey name entry seq)))%list,
                snd (MySQLDBMS.iter_keys_loop rows (Raised e) (InKey name entry seq)))
               = match snd (MySQLDBMS.iter_keys_loop rows Exhausted
                              (InKey name entry seq)) with
                 | Exhausted =>
                     (removelast
                        (yielded ++ fst (MySQLDBMS.iter_keys_loop rows Exhausted
                                           (InKey name entry seq))), Raised e)
                 | Raised a =>
                     ((yielded ++ fst (MySQLDBMS.iter_keys_loop rows Exhausted
                                         (InKey name entry seq)))%list,
                      snd (MySQLDBMS.iter_keys_loop rows Exhausted
                             (InKey name entry seq)))
                 end).
    { intros yielded name entry seq. rewrite (IH (InKey name entry seq)).
      pose proof (iter_keys_loop_yields rows name entry seq) as Hy.
      destruct (MySQLDBMS.iter_keys_loop rows Exhausted (InKey name entry seq))
        as [ys [|a]]; cbn [fst snd] in *; [|reflexivity].
      rewrite removelast_app by (apply Hy; reflexivity). reflexivity. }
    destruct st as [|last_key_name entry last_key_seq].
    + destruct (kr_seq_in_index r =? 0 + 1)%Z; cbn [fst snd]; [|reflexivity].
      apply Hstep.
    + destruct (String.eqb (kr_key_name r) last_key_name).
      * destruct (kr_seq_in_index r =? last_key_seq + 1)%Z; cbn [fst snd];
          [|reflexivity].
        apply Hstep.
      * destruct (kr_seq_in_index r =? 0 + 1)%Z; cbn [fst snd]; [|reflexivity].
        apply Hstep.
Qed.

(** What [iter_keys] yields, by the groups of its rows. *)
Lemma iter_keys_by_groups (srv : mysql_server) (table : string) :
  MySQLDBMS.iter_keys srv table
  = if forallb in_sequence (group_rows (MySQLDBMS.show_other_keys srv table))
    then (map entry_of (removelast (group_rows (MySQLDBMS.show_other_keys srv table))),
          Raised (RuntimeError "generator raised StopIteration"))
    else (map entry_of
              (take_while in_sequence
                          (group_rows (MySQLDBMS.show_other_keys srv table))),
          Raised (AssertionError "key fields not being returned in sequence")).
Proof.
  unfold MySQLDBMS.iter_keys. rewrite mysql_iter_rows. cbn [fst snd].
  rewrite map_id, iter_keys_loop_raised, iter_keys_loop_groups.
  unfold keys_of_groups. cbn [fst snd].
  destruct (forallb in_sequence _) eqn:Hall; [|reflexivity].
  now rewrite (take_while_all _ _ Hall), map_removelast.
Qed.

(** C6 on the code: the rows of iter_keys fall into groups of neighbouring
    rows of one key name (the groups cover the rows in order, each carries
    one name, and the name changes from a group to the next), and the entry
    of a group is yielded when the name changes, but not when the rows end:
    the generator of the rows never ends normally, it raises RuntimeError
    when its cursor has no row left, which leaves iter_keys through its call
    of next before the entry in hand is yielded.  So, the sequence numbers
    of every group being 1, 2, 3, ..., iter_keys yields the entries of all
    groups but the last and ends with RuntimeError; otherwise it yields the
    entries of the groups before the first faulty one and ends with the
    failed assertion.  The loop alone, run over rows that end normally,
    yields the last entry too.  For the table of the sample, whose one
    non-primary key is by_note, nothing is yielded. *)
Theorem mysql_iter_keys_loses_last_key :
  (forall (srv : mysql_server) (table : string),
      let groups := group_rows (MySQLDBMS.show_other_keys srv table) in
      MySQLDBMS.iter_keys srv table
      = if forallb in_sequence groups
        then (map entry_of (removelast groups),
              Raised (RuntimeError "generator raised StopIteration"))
        else (map entry_of (take_while in_sequence groups),
              Raised (AssertionError "key fields not being returned in sequence")))
  /\ (forall rows : list key_row,
        let groups := group_rows rows in
        concat groups = rows
        /\ Forall one_key groups
        /\ names_change groups)
  /\ (forall g : list key_row,
        in_sequence g = true
        <-> forall (i : nat) (r : key_row),
              g !! i = Some r -> kr_seq_in_index r = Z.of_nat i + 1)
  /\ (forall rows : list key_row,
        let groups := group_rows rows in
        MySQLDBMS.iter_keys_loop rows Exhausted Start
        = (map entry_of (take_while in_sequence groups),
           if forallb in_sequence groups then Exhausted
           else Raised (AssertionError "key fields not being returned in sequence")))
  /\ MySQLDBMS.show_other_keys sample_server "t"
     = [ {| kr_table := "t"; kr_non_unique := 0; kr_key_name := "by_note";
            kr_seq_in_index := 1; kr_column_name := "note" |};
         {| kr_table := "t"; kr_non_unique := 0; kr_key_name := "by_note";
            kr_seq_in_index := 2; kr_column_name := "id" |} ]
  /\ MySQLDBMS.iter_keys sample_server "t"
     = ([], Raised (RuntimeError "generator raised StopIteration")).
Proof.
  split; [intros srv table groups; apply iter_keys_by_groups|]. split.
  - intros rows groups.
    subst groups. destruct rows as [|r rows]; cbn [group_rows].
    + repeat split; constructor.
    + split; [apply group_aux_concat|]. split.
      * apply group_aux_one_key. now constructor.
      * now apply group_aux_names_change.
  - split.
    + intros g. unfold in_sequence. rewrite runs_from_lookup.
      split; intros H i r Hr; rewrite (H i r Hr); lia.
    + split; [intros rows groups; apply iter_keys_loop_groups|].
      split; reflexivity.
Qed.

Example iter_keys_two_keys :
  MySQLDBMS.iter_keys_loop
    [ {| kr_table := "t"; kr_non_unique := 1; kr_key_name := "k1";
         kr_seq_in_index := 1; kr_column_name := "a" |};
      {| kr_table := "t"; kr_non_unique := 1; kr_key_name := "k2";
         kr_seq_in_index := 1; kr_column_name := "b" |};
      {| kr_table := "t"; kr_non_unique := 1; kr_key_name := "k2";
         kr_seq_in_index := 2; kr_column_name := "c" |} ]
    (Raised (RuntimeError "generator raised StopIteration")) Start
  = ([ {| key_name := "k1"; unique := false; fields := ["a"] |} ],
     Raised (RuntimeError "generator raised StopIteration")).
Proof. reflexivity. Qed.

Example iter_keys_gap :
  MySQLDBMS.iter_keys_loop
    [ {| kr_table := "t"; kr_non_unique := 1; kr_key_name := "k1";
         kr_seq_in_index := 1; kr_column_name := "a" |};
      {| kr_table := "t"; kr_non_unique := 1; kr_key_name := "k2";
         kr_seq_in_index := 1; kr_column_name := "b" |};
      {| kr_table := "t"; kr_non_unique := 1; kr_key_name := "k2";
         kr_seq_in_index := 3; kr_column_name := "c" |} ]
    (Raised (RuntimeError "generator raised StopIteration")) Start
  = ([ {| key_name := "k1"; unique := false; fields := ["a"] |} ],
     Raised (AssertionError "key fields not being returned in sequence")).
Proof. reflexivity. Qed.

(** ** iter_columns *)

Lemma sqlite_iter_rows {A B} (rows : list A) (mapfn : A -> B) :
  SQLiteDBMS.iter rows mapfn
  = (map mapfn rows, Raised (RuntimeError "generator raised StopIteration")).
Proof.
  induction rows as [|row rows IH]; [reflexivity|].
  cbn [SQLiteDBMS.iter map]. rewrite IH. reflexivity.
Qed.

Lemma mysql_iter_columns_raises (srv : mysql_server) (table : string) :
  MySQLDBMS.iter_columns srv table
  = ([], Raised (RuntimeError "generator raised StopIteration")).
Proof. unfold MySQLDBMS.iter_columns. rewrite mysql_iter_rows. reflexivity. Qed.

Lemma sqlite_iter_columns_rows (db : sqlite_database) (table : string) :
  SQLiteDBMS.iter_columns db table
  = (map SQLiteDBMS.column_of_item (table_info db table),
     Raised (RuntimeError "generator raised StopIteration")).
Proof.
  unfold SQLiteDBMS.iter_columns. rewrite sqlite_iter_rows. cbn [fst snd].
  now rewrite map_id.
Qed.

(** C7 on the code: MySQLDBMS.iter_columns reports no column at all, for
    whatever table: the generator of the PRIMARY rows raises RuntimeError
    when its cursor has no row left, which ends iter_columns in its first
    loop, before the first descriptor; and the descriptor its second loop
    builds for a row has not_null true exactly when the Null field of SHOW
    COLUMNS is not NO, that is for a column that allows NULL.
    SQLiteDBMS.iter_columns yields one descriptor per row of table_info,
    with not_null true exactly when the notnull field is not zero, and then
    ends with the same RuntimeError.  For the same table, with id declared
    NOT NULL and note nullable, the SQLite backend reports id as not_null
    and note as not, the MySQL backend reports nothing, and the descriptors
    of its second loop carry the opposite flags. *)
Theorem not_null_of_the_two_backends :
  (forall (srv : mysql_server) (table : string),
      MySQLDBMS.iter_columns srv table
      = ([], Raised (RuntimeError "generator raised StopIteration")))
  /\ (forall (primary_key_seq : gmap string Z) (item : column_row),
        col_name (MySQLDBMS.column_of_item primary_key_seq item) = cr_field item
        /\ (not_null (MySQLDBMS.column_of_item primary_key_seq item) = true
            <-> cr_null item <> "NO"))
  /\ (forall (db : sqlite_database) (table : string),
        SQLiteDBMS.iter_columns db table
        = (map SQLiteDBMS.column_of_item (table_info db table),
           Raised (RuntimeError "generator raised StopIteration")))
  /\ (forall item : table_info_row,
        col_name (SQLiteDBMS.column_of_item item) = ti_name item
        /\ (not_null (SQLiteDBMS.column_of_item item) = true
            <-> ti_notnull item <> 0%Z))
  /\ map (fun item => (cr_field item, cr_null item)) (show_columns_from sample_server "t")
     = [("id", "NO"); ("note", "YES")]
  /\ map (fun c => (col_name c, not_null c))
         (map (MySQLDBMS.column_of_item ∅) (show_columns_from sample_server "t"))
     = [("id", false); ("note", true)]
  /\ map (fun item => (ti_name item, ti_notnull item)) (table_info sample_database "t")
     = [("id", 1%Z); ("note", 0%Z)]
  /\ map (fun c => (col_name c, not_null c))
         (fst (SQLiteDBMS.iter_columns sample_database "t"))
     = [("id", true); ("note", false)].
Proof.
  split; [exact mysql_iter_columns_raises|].
  split.
  { intros pk item. split; [reflexivity|].
    cbn [MySQLDBMS.column_of_item not_null].
    now rewrite negb_true_iff, String.eqb_neq. }
  split; [exact sqlite_iter_columns_rows|].
  split.
  { intros item. split; [reflexivity|].
    cbn [SQLiteDBMS.column_of_item not_null].
    now rewrite negb_true_iff, Z.eqb_neq. }
  repeat split.
Qed.

(** ** SQLiteDBMS.iter_keys *)

(** C5 on the code: the module never imports re, so with any index in the
    database iter_keys raises NameError at the first row and yields
    nothing; were re bound, iter_keys would yield the keys of every index
    of the database, here that of table t2 when asked for table t1 (flag,
    name and trimmed fields recovered, the where clause dropped), before the
    RuntimeError with which the generator of the rows ends, because its
    statement does not mention the table: the result never depends on
    table_name. *)
Theorem sqlite_iter_keys_ignores_table :
  SQLiteDBMS.iter_keys module_globals sample_database "t1"
  = ([], Raised (NameError "re"))
  /\ SQLiteDBMS.iter_keys ("re" :: module_globals) sample_database "t1"
     = ([ {| key_name := "i2"; unique := true; fields := ["x"; "y"] |} ],
        Raised (RuntimeError "generator raised StopIteration"))
  /\ (forall (globals : list string) (db : sqlite_database) (t t' : string),
        SQLiteDBMS.iter_keys globals db t = SQLiteDBMS.iter_keys globals db t').
Proof.
  split; [reflexivity|]. split; reflexivity.
Qed.

(** ** parse_dbms_params *)



Lemma param_step_classify (cls : dbms_class) (m : gmap string pyval)
      (u : gset string) (item : string) :
  param_step cls (m, u) item =
    match classify cls item with
    | Malformed n => Raise (ValueError (UnpackError n))
    | BadValue e => Raise e
    | Unrecognized keyword => Ok (m, {[ keyword ]} ∪ u)
    | Good keyword v => Ok (<[keyword := v]> m, u)
    end.
Proof.
  unfold param_step, classify.
  destruct (split1 "=" item) as [|keyword [|value [|x l]]]; try reflexivity.
  destruct (conn_parm_names cls !! keyword) as [f|]; [|reflexivity].
  destruct (String.eqb keyword "create"); cbn [negb]; [reflexivity|].
  destruct (convert f value); reflexivity.
Qed.

(** The loop over items none of which raises. *)
Lemma param_loop_passes (cls : dbms_class) (items : list string) :
  forall (m : gmap string pyval) (u : gset string),
    forallb (passes cls) items = true ->
    exists u' : gset string,
      param_loop cls items (m, u) = Ok (gather cls items m, u')
      /\ u ⊆ u'
      /\ (existsb (fun item => is_unrecognized (classify cls item)) items = true ->
          u' <> ∅)
      /\ (forallb (fun item => is_good (classify cls item)) items = true -> u' = u).
Proof.
  induction items as [|item items IH]; intros m u Hpass.
  - exists u. cbn. repeat split; [set_solver | discriminate].
  - cbn [forallb] in Hpass. apply andb_true_iff in Hpass as [Hitem Hitems].
    cbn [param_loop gather fold_left existsb forallb].
    rewrite param_step_classify. unfold passes in Hitem.
    destruct (classify cls item) as [n|e|keyword|keyword v];
      cbn [is_good is_unrecognized orb] in Hitem; try discriminate Hitem;
      cbn [res_bind is_good is_unrecognized orb andb].
    + destruct (IH m ({[ keyword ]} ∪ u) Hitems) as (u' & Hloop & Hsub & _ & _).
      exists u'. split; [exact Hloop|]. split; [set_solver|].
      split; [intros _; set_solver | discriminate].
    + destruct (IH (<[keyword := v]> m) u Hitems) as (u' & Hloop & Hsub & Hex & Hall).
      exists u'. repeat split; assumption.
Qed.





(** [int] allows the ASCII whitespace and the two Unicode spaces of Latin-1
    around the number, a sign, and single underscores between digits; it
    refuses the separators 28 to 31. *)
Example py_int_samples :
  py_int " 3306 " = Ok 3306
  /\ py_int (String (chr 160) (String (chr 9) "-1_000")) = Ok (-1000)
  /\ py_int (String (chr 31) "12") = Raise (ValueError (InvalidInt (String (chr 31) "12")))
  /\ py_int ("12" ++ str1 (chr 28)) = Raise (ValueError (InvalidInt ("12" ++ str1 (chr 28))))
  /\ py_int "1__0" = Raise (ValueError (InvalidInt "1__0"))
  /\ py_int "+ 1" = Raise (ValueError (InvalidInt "+ 1"))
  /\ py_int "" = Raise (ValueError (InvalidInt "")).
Proof. repeat split; vm_compute; reflexivity. Qed.

(** ** The index pattern of SQLiteDBMS.iter_keys *)

Lemma all_chars_app (p : ascii -> bool) (a b : string) :
  all_chars p (a ++ b) = all_chars p a && all_chars p b.
Proof.
  induction a as [|c a IH]; [reflexivity|].
  rewrite append_cons. unfold all_chars in *. cbn [list_ascii_of_string forallb].
  now rewrite IH, andb_assoc.
Qed.

Lemma all_chars_weaken (p q : ascii -> bool) (s : string) :
  (forall c, p c = true -> q c = true) ->
  all_chars p s = true -> all_chars q s = true.
Proof.
  intros Hpq. unfold all_chars. induction s as [|c s IH]; [reflexivity|].
  cbn [list_ascii_of_string forallb]. rewrite !andb_true_iff.
  intros [Hc Hs]. split; [apply Hpq, Hc | apply IH, Hs].
Qed.

Lemma match_literal_same_ci (lit a rest : string) :
  same_ci lit a = true -> match_literal lit (a ++ rest) = Some (a, rest).
Proof.
  revert a; induction lit as [|x lit IH]; intros [|y a] H; try discriminate H.
  - reflexivity.
  - cbn [same_ci] in H. apply andb_true_iff in H as [Hxy Ha].
    rewrite append_cons. cbn [match_literal]. now rewrite Hxy, (IH a Ha).
Qed.

Lemma span_while_app (p : ascii -> bool) (a rest : string) :
  all_chars p a = true -> stops p rest = true ->
  span_while p (a ++ rest) = (a, rest).
Proof.
  intros Ha Hrest. induction a as [|c a IH].
  - destruct rest as [|c rest]; [reflexivity|].
    cbn [stops] in Hrest. apply negb_true_iff in Hrest.
    change ("" ++ String c rest) with (String c rest). cbn [span_while].
    now rewrite Hrest.
  - unfold all_chars in Ha. cbn [list_ascii_of_string forallb] in Ha.
    apply andb_true_iff in Ha as [Hc Ha].
    rewrite append_cons. cbn [span_while]. now rewrite Hc, (IH Ha).
Qed.

Lemma match_plus_app (p : ascii -> bool) (a rest : string) :
  a <> "" -> all_chars p a = true -> stops p rest = true ->
  match_plus p (a ++ rest) = Some (a, rest).
Proof.
  intros Hne Ha Hrest. unfold match_plus. rewrite (span_while_app p a rest Ha Hrest).
  destruct a; [contradiction|reflexivity].
Qed.

Lemma same_ci_space_first (lit a : string) :
  same_ci (String " " lit) a = true -> exists a', a = String " " a'.
Proof.
  destruct a as [|c a]; [discriminate|]. cbn [same_ci].
  intros H. apply andb_true_iff in H as [Hc _]. exists a. f_equal.
  destruct c as [[] [] [] [] [] [] [] []]; try discriminate Hc; reflexivity.
Qed.

Lemma space_not_word (c : ascii) : is_space c = true -> is_word c = false.
Proof. destruct c as [[] [] [] [] [] [] [] []]; intros H; try discriminate H; reflexivity. Qed.

Lemma space_not_listed (c : ascii) :
  is_space c = true -> not_among [","; ")"]%char c = true.
Proof. destruct c as [[] [] [] [] [] [] [] []]; intros H; try discriminate H; reflexivity. Qed.

(** The optional group finds nothing where the keyword index stands. *)
Lemma no_unique_at_index (kw_index rest : string) :
  same_ci " index " kw_index = true ->
  match_literal " unique" (kw_index ++ rest) = None.
Proof.
  intros H. destruct kw_index as [|c1 [|c2 k]]; cbn [same_ci] in H;
    try discriminate H; [now rewrite andb_false_r in H|].
  apply andb_true_iff in H as [H1 H]. apply andb_true_iff in H as [H2 _].
  rewrite !append_cons. cbn [match_literal]. rewrite H1.
  replace (lower_char "u" =? lower_char c2)%char with false; [reflexivity|].
  symmetry. apply Ascii.eqb_neq. apply Ascii.eqb_eq in H2. rewrite <- H2. discriminate.
Qed.

Lemma lstrip_spaces_app (l x : string) :
  all_chars is_space l = true -> lstrip (l ++ x) = lstrip x.
Proof.
  induction l as [|c l IH]; intros Hl; [reflexivity|].
  unfold all_chars in Hl. cbn [list_ascii_of_string forallb] in Hl.
  apply andb_true_iff in Hl as [Hc Hl].
  rewrite append_cons. cbn [lstrip]. rewrite Hc. exact (IH Hl).
Qed.

Lemma rstrip_all_space (r : string) : all_chars is_space r = true -> rstrip r = "".
Proof.
  induction r as [|c r IH]; intros Hr; [reflexivity|].
  unfold all_chars in Hr. cbn [list_ascii_of_string forallb] in Hr.
  apply andb_true_iff in Hr as [Hc Hr].
  cbn [rstrip]. now rewrite (IH Hr), Hc.
Qed.

Lemma rstrip_app_spaces (f r : string) :
  all_chars is_space r = true -> rstrip (f ++ r) = rstrip f.
Proof.
  intros Hr. induction f as [|c f IH].
  - change ("" ++ r) with r. now rewrite rstrip_all_space.
  - rewrite append_cons. cbn [rstrip]. now rewrite IH.
Qed.

Lemma rstrip_ends_well (f : string) : ends_well f = true -> rstrip f = f.
Proof.
  induction f as [|c f IH]; intros Hf; [reflexivity|].
  destruct f as [|c' f].
  - cbn [ends_well] in Hf. apply negb_true_iff in Hf. cbn [rstrip]. now rewrite Hf.
  - change (ends_well (String c (String c' f))) with (ends_well (String c' f)) in Hf.
    change (rstrip (String c (String c' f)))
      with (match rstrip (String c' f) with
            | EmptyString => if is_space c then EmptyString else str1 c
            | r => String c r
            end).
    now rewrite (IH Hf).
Qed.

(** Stripping a written field gives the field. *)
Lemma strip_written (f : written_field) :
  well_written f = true -> strip (field_text f) = field f.
Proof.
  unfold well_written, field_text, strip. rewrite !andb_true_iff.
  intros [[[Hb Ha] Ht] _].
  rewrite (lstrip_spaces_app _ _ Hb).
  destruct (field f) as [|c s] eqn:Hf.
  - change ("" ++ after f) with (after f).
    pose proof (lstrip_spaces_app (after f) "" Ha) as H.
    rewrite append_empty_r in H. now rewrite H.
  - cbn [trimmed] in Ht. apply andb_true_iff in Ht as [Hc Hend].
    apply negb_true_iff in Hc.
    rewrite append_cons. cbn [lstrip]. rewrite Hc, <- append_cons.
    now rewrite (rstrip_app_spaces _ _ Ha), (rstrip_ends_well _ Hend).
Qed.

Lemma split_no_sep (sep : ascii) (x : string) :
  all_chars (fun c => negb (c =? sep)%char) x = true -> split sep x = [x].
Proof.
  induction x as [|c x IH]; intros Hx; [reflexivity|].
  unfold all_chars in Hx. cbn [list_ascii_of_string forallb] in Hx.
  apply andb_true_iff in Hx as [Hc Hx]. apply negb_true_iff in Hc.
  cbn [split]. now rewrite Hc, (IH Hx).
Qed.

Lemma split_app (sep : ascii) (x rest : string) :
  all_chars (fun c => negb (c =? sep)%char) x = true ->
  split sep (x ++ String sep rest) = x :: split sep rest.
Proof.
  induction x as [|c x IH]; intros Hx.
  - change ("" ++ String sep rest) with (String sep rest). cbn [split].
    now rewrite Ascii.eqb_refl.
  - unfold all_chars in Hx. cbn [list_ascii_of_string forallb] in Hx.
    apply andb_true_iff in Hx as [Hc Hx]. apply negb_true_iff in Hc.
    rewrite append_cons. cbn [split]. now rewrite Hc, (IH Hx).
Qed.

Lemma split_concat (sep : ascii) (xs : list string) :
  xs <> [] ->
  forallb (all_chars (fun c => negb (c =? sep)%char)) xs = true ->
  split sep (String.concat (str1 sep) xs) = xs.
Proof.
  induction xs as [|x xs IH]; intros Hne Hxs; [contradiction|].
  cbn [forallb] in Hxs. apply andb_true_iff in Hxs as [Hx Hxs].
  destruct xs as [|y xs].
  - cbn [String.concat]. now apply split_no_sep.
  - rewrite concat_cons2.
    change (str1 sep ++ String.concat (str1 sep) (y :: xs))
      with (String sep (String.concat (str1 sep) (y :: xs))).
    rewrite (split_app sep x _ Hx). f_equal. apply IH; [discriminate|exact Hxs].
Qed.

Lemma all_chars_concat (p : ascii -> bool) (sep : string) (xs : list string) :
  all_chars p sep = true -> forallb (all_chars p) xs = true ->
  all_chars p (String.concat sep xs) = true.
Proof.
  intros Hsep. induction xs as [|x xs IH]; intros Hxs; [reflexivity|].
  cbn [forallb] in Hxs. apply andb_true_iff in Hxs as [Hx Hxs].
  destruct xs as [|y xs]; [exact Hx|].
  rewrite concat_cons2, !all_chars_app, Hx, Hsep. exact (IH Hxs).
Qed.

(** The text of a well written field holds neither a comma nor a closing
    parenthesis. *)
Lemma field_text_plain (f : written_field) :
  well_written f = true ->
  all_chars (not_among [","; ")"]%char) (field_text f) = true.
Proof.
  unfold well_written, field_text. rewrite !andb_true_iff.
  intros [[[Hb Ha] _] Hf]. rewrite !all_chars_app, Hf.
  now rewrite (all_chars_weaken _ _ _ space_not_listed Hb),
    (all_chars_weaken _ _ _ space_not_listed Ha).
Qed.

Lemma forallb_map {A B} (p : B -> bool) (f : A -> B) (l : list A) :
  forallb p (map f l) = forallb (fun x => p (f x)) l.
Proof. induction l as [|x l IH]; [reflexivity|]. cbn [map forallb]. now rewrite IH. Qed.

Lemma forallb_weaken {A} (p q : A -> bool) (l : list A) :
  (forall x, p x = true -> q x = true) -> forallb p l = true -> forallb q l = true.
Proof.
  intros Hpq. induction l as [|x l IH]; [reflexivity|]. cbn [forallb].
  rewrite !andb_true_iff. intros [Hx Hl]. split; [apply Hpq, Hx | apply IH, Hl].
Qed.

Lemma search_index_ddl (kc ku ki ko : string) (u : bool)
      (name tbl gap : string) (fs : list written_field) (tail : string) :
  same_ci "create" kc = true -> same_ci " unique" ku = true ->
  same_ci " index " ki = true -> same_ci " on " ko = true ->
  name <> "" -> all_chars is_word name = true ->
  tbl <> "" -> all_chars is_word tbl = true ->
  all_chars is_space gap = true ->
  forallb well_written fs = true ->
  String.concat "," (map field_text fs) <> "" ->
  SQLiteDBMS.search_index (index_ddl kc ku ki ko u name tbl gap fs tail)
  = Some {| group1 := if u then Some ku else None; group2 := name;
            group3 := tbl; group4 := String.concat "," (map field_text fs) |}.
Proof.
  intros Hc Hu Hi Ho Hname Hnamew Htbl Htblw Hgap Hfs Hbody.
  set (body := String.concat "," (map field_text fs)) in *.
  assert (Hstop1 : stops is_word (ko ++ tbl ++ gap ++ "(" ++ body ++ ")" ++ tail) = true).
  { destruct (same_ci_space_first _ _ Ho) as (ko' & ->). reflexivity. }
  assert (Hstop2 : stops is_word (gap ++ "(" ++ body ++ ")" ++ tail) = true).
  { destruct gap as [|c gap]; [reflexivity|].
    unfold all_chars in Hgap. cbn [list_ascii_of_string forallb] in Hgap.
    apply andb_true_iff in Hgap as [Hcs _].
    rewrite append_cons. cbn [stops]. now rewrite (space_not_word c Hcs). }
  assert (Hplain : all_chars (fun c => negb (c =? ")")%char) body = true).
  { apply all_chars_concat; [reflexivity|].
    rewrite forallb_map. revert Hfs. apply forallb_weaken.
    intros f Hf. apply all_chars_weaken with (p := not_among [","; ")"]%char);
      [|exact (field_text_plain f Hf)].
    intros c. unfold not_among. cbn [existsb]. rewrite orb_false_r, negb_orb.
    intros H. now apply andb_true_iff in H as [_ H]. }
  unfold SQLiteDBMS.search_index, index_ddl. fold body.
  rewrite (match_literal_same_ci "create" kc _ Hc). cbn [mbind option_bind].
  assert (Hfirst :
            match match_literal " unique"
                    ((if u then ku else "") ++ ki ++ name ++ ko ++ tbl ++ gap
                     ++ "(" ++ body ++ ")" ++ tail) with
            | Some (m, s') => (Some m, s')
            | None => (None, (if u then ku else "") ++ ki ++ name ++ ko ++ tbl
                             ++ gap ++ "(" ++ body ++ ")" ++ tail)
            end
            = (if u then Some ku else None,
               ki ++ name ++ ko ++ tbl ++ gap ++ "(" ++ body ++ ")" ++ tail)).
  { destruct u.
    - now rewrite (match_literal_same_ci " unique" ku _ Hu).
    - change ("" ++ ?x) with x. now rewrite (no_unique_at_index ki _ Hi). }
  rewrite Hfirst.
  rewrite (match_literal_same_ci " index " ki _ Hi). cbn [mbind option_bind].
  rewrite (match_plus_app is_word name _ Hname Hnamew Hstop1). cbn [mbind option_bind].
  rewrite (match_literal_same_ci " on " ko _ Ho). cbn [mbind option_bind].
  rewrite (match_plus_app is_word tbl _ Htbl Htblw Hstop2). cbn [mbind option_bind].
  rewrite (span_while_app is_space gap ("(" ++ body ++ ")" ++ tail) Hgap eq_refl).
  rewrite (match_literal_same_ci "(" "(" _ eq_refl). cbn [mbind option_bind].
  rewrite (match_plus_app _ body (")" ++ tail) Hbody Hplain eq_refl).
  cbn [mbind option_bind].
  rewrite (match_literal_same_ci ")" ")" _ eq_refl). reflexivity.
Qed.


(** X1: were the name re bound, the body of the loop of
    SQLiteDBMS.iter_keys recovers an index definition from its text: for
    CREATE [UNIQUE] INDEX name ON table (f1, f2, ...) followed by anything,
    with the keywords in any letter case and whitespace around the fields,
    it yields the name, the flag telling whether UNIQUE was written, and the
    fields without their surrounding whitespace, in the order written; what
    follows the closing parenthesis plays no part. *)
Theorem index_definition_recovered
        (globals : list string) (kc ku ki ko : string) (u : bool)
        (name tbl gap : string) (fs : list written_field) (tail : string) :
  bound globals "re" = true ->
  same_ci "create" kc = true -> same_ci " unique" ku = true ->
  same_ci " index " ki = true -> same_ci " on " ko = true ->
  name <> "" -> all_chars is_word name = true ->
  tbl <> "" -> all_chars is_word tbl = true ->
  all_chars is_space gap = true ->
  fs <> [] -> forallb well_written fs = true ->
  String.concat "," (map field_text fs) <> "" ->
  SQLiteDBMS.key_of_item globals
    (Some (index_ddl kc ku ki ko u name tbl gap fs tail))
  = Ok {| key_name := name; unique := u; fields := map field fs |}.
Proof.
  intros Hre Hc Hu Hi Ho Hname Hnamew Htbl Htblw Hgap Hne Hfs Hbody.
  unfold SQLiteDBMS.key_of_item. rewrite Hre. cbn [negb].
  rewrite (search_index_ddl kc ku ki ko u name tbl gap fs tail) by assumption.
  cbn [group1 group2 group3 group4].
  assert (Hsplit : split "," (String.concat "," (map field_text fs))
                   = map field_text fs).
  { apply (split_concat ","); [now destruct fs|].
    rewrite forallb_map. revert Hfs. apply forallb_weaken.
    intros f Hf. apply all_chars_weaken with (p := not_among [","; ")"]%char);
      [|exact (field_text_plain f Hf)].
    intros c. unfold not_among. cbn [existsb]. rewrite orb_false_r, negb_orb.
    intros H. now apply andb_true_iff in H as [H _]. }
  rewrite Hsplit, map_map.
  assert (Hstrip : map (fun f => strip (field_text f)) fs = map field fs).
  { clear - Hfs. induction fs as [|f fs IH]; [reflexivity|].
    cbn [forallb] in Hfs. apply andb_true_iff in Hfs as [Hf Hfs].
    cbn [map]. now rewrite (strip_written f Hf), (IH Hfs). }
  rewrite Hstrip. now destruct u.
Qed.

Lemma index_definition_recovered_witness :
  SQLiteDBMS.key_of_item
    ("re" :: module_globals)
    (Some "CREATE UNIQUE INDEX i2 ON t2 (x , y) where x > 0")
  = Ok {| key_name := "i2"; unique := true; fields := ["x"; "y"] |}.
Proof.
  apply (index_definition_recovered
           ("re" :: module_globals) "CREATE" " UNIQUE" " INDEX " " ON " true
           "i2" "t2" " "
           [ {| before := ""; field := "x"; after := " " |};
             {| before := " "; field := "y"; after := "" |} ]
           " where x > 0");
    try reflexivity; discriminate.
Defined.

(** ** Literals of MySQLDBMS.string read back *)

Lemma read_escape_char (c : ascii) (s : string) :
  read_quoted_body (MySQLDBMS.escape_char c ++ s) = prepend c (read_quoted_body s).
Proof. destruct c as [[] [] [] [] [] [] [] []]; reflexivity. Qed.

Lemma read_escaped (l : list ascii) (rest : string) :
  read_quoted_body
    (String.concat "" (map MySQLDBMS.escape_char l) ++ String dquote rest)
  = Some (string_of_list_ascii l, rest).
Proof.
  induction l as [|c l IH]; [reflexivity|].
  assert (Hcat : String.concat "" (map MySQLDBMS.escape_char (c :: l))
                 = MySQLDBMS.escape_char c
                   ++ String.concat "" (map MySQLDBMS.escape_char l)).
  { cbn [map]. destruct (map MySQLDBMS.escape_char l) as [|y ys].
    - cbn [String.concat]. now rewrite append_empty_r.
    - now rewrite concat_cons2. }
  rewrite Hcat, append_assoc, read_escape_char, IH. reflexivity.
Qed.

Lemma read_hex2 (i : byte) (s : string) :
  read_hex_pairs (MySQLDBMS.hex2 i ++ s)
  = match read_hex_pairs s with
    | Some (bs, rest) => Some (i :: bs, rest)
    | None => None
    end.
Proof. destruct i; reflexivity. Qed.

Lemma read_hex_all (bs : list byte) (rest : string) :
  read_hex_pairs (String.concat "" (map MySQLDBMS.hex2 bs) ++ String squote rest)
  = Some (bs, rest).
Proof.
  induction bs as [|b bs IH]; [reflexivity|].
  assert (Hcat : String.concat "" (map MySQLDBMS.hex2 (b :: bs))
                 = MySQLDBMS.hex2 b ++ String.concat "" (map MySQLDBMS.hex2 bs)).
  { cbn [map]. destruct (map MySQLDBMS.hex2 bs) as [|y ys].
    - cbn [String.concat]. now rewrite append_empty_r.
    - now rewrite concat_cons2. }
  rewrite Hcat, append_assoc, read_hex2, IH. reflexivity.
Qed.

Lemma string_quoted_form (t : string) :
  str1 dquote
  ++ String.concat ""
       (fold_left (fun result ch => (result ++ [MySQLDBMS.escape_char ch])%list)
                  (list_ascii_of_string t) [])
  ++ str1 dquote
  = String dquote
      (String.concat "" (map MySQLDBMS.escape_char (list_ascii_of_string t))
       ++ str1 dquote).
Proof. now rewrite fold_left_snoc, app_nil_l. Qed.

Lemma read_quoted_text (t rest : string) :
  read_quoted
    (String dquote
       (String.concat "" (map MySQLDBMS.escape_char (list_ascii_of_string t))
        ++ str1 dquote) ++ rest)
  = Some (t, rest).
Proof.
  rewrite append_cons, append_assoc.
  change (str1 dquote ++ rest) with (String dquote rest).
  change (read_quoted (String dquote ?x)) with (read_quoted_body x).
  now rewrite read_escaped, string_of_list_ascii_of_string.
Qed.

(** X2: a literal made by MySQLDBMS.string reads back to the value it was
    made from, and ends where the reader says it ends: reading the quoted
    literal of a text, number or boolean by the backslash convention (a
    backslash takes the next character with it; 0, b, t, n, r and z stand
    for the six control characters) gives the string form of the value and
    stops exactly at the closing quote, whatever text follows; reading the
    X'..' literal of a byte sequence gives the bytes back.  So two texts
    with the same literal are the same text. *)
Theorem mysql_literal_reads_back :
  (forall (v : pyval) (rest : string),
      match v with
      | VNone => MySQLDBMS.string v ++ rest = "null" ++ rest
      | VBytes bs => read_blob (MySQLDBMS.string v ++ rest) = Some (bs, rest)
      | _ => read_quoted (MySQLDBMS.string v ++ rest) = Some (py_str v, rest)
      end)
  /\ (forall a b : string,
        MySQLDBMS.string (VStr a) = MySQLDBMS.string (VStr b) -> a = b).
Proof.
  assert (Htext : forall t rest,
             read_quoted (MySQLDBMS.string (VStr t) ++ rest) = Some (t, rest)).
  { intros t rest. unfold MySQLDBMS.string. cbn [py_str].
    rewrite string_quoted_form. apply read_quoted_text. }
  split.
  - intros v rest. destruct v as [|b|n|t|bs].
    + reflexivity.
    + exact (Htext (py_str (VBool b)) rest).
    + exact (Htext (py_str (VInt n)) rest).
    + exact (Htext t rest).
    + unfold MySQLDBMS.string.
      rewrite !append_assoc.
      change ("X'" ++ ?x) with (String "X" (String squote x)).
      change ("'" ++ rest) with (String squote rest).
      change (read_blob (String "X" (String squote ?x))) with (read_hex_pairs x).
      apply read_hex_all.
  - intros a b Hab.
    pose proof (Htext a "") as Ha. pose proof (Htext b "") as Hb.
    rewrite Hab, Hb in Ha. now injection Ha.
Qed.

(** ** The generators never end normally *)

Lemma sqlite_loop_end (globals : list string) (items : list (option string))
      (stop : ending) :
  stop <> Exhausted ->
  snd (SQLiteDBMS.iter_keys_loop globals items stop) <> Exhausted.
Proof.
  intros Hstop. induction items as [|item items IH]; [exact Hstop|].
  cbn [SQLiteDBMS.iter_keys_loop].
  destruct (SQLiteDBMS.key_of_item globals item); [exact IH | discriminate].
Qed.

(** X3: iter of either backend yields the rows of its cursor in order, each
    through mapfn, and then raises RuntimeError in place of ending; so
    iter_table_names yields the table names and then raises, and none of
    the six introspection generators ever ends normally. *)
Theorem generators_end_by_raising :
  (forall (A B : Type) (rows : list A) (mapfn : A -> B),
      MySQLDBMS.iter rows mapfn
      = (map mapfn rows, Raised (RuntimeError "generator raised StopIteration"))
      /\ SQLiteDBMS.iter rows mapfn
         = (map mapfn rows, Raised (RuntimeError "generator raised StopIteration")))
  /\ (forall srv : mysql_server,
        MySQLDBMS.iter_table_names srv
        = (show_tables srv, Raised (RuntimeError "generator raised StopIteration")))
  /\ (forall db : sqlite_database,
        SQLiteDBMS.iter_table_names db
        = (map m_name
               (List.filter (fun r => String.eqb (m_type r) "table") (sqlite_master db)),
           Raised (RuntimeError "generator raised StopIteration")))
  /\ (forall (srv : mysql_server) (table : string),
        snd (MySQLDBMS.iter_table_names srv) <> Exhausted
        /\ snd (MySQLDBMS.iter_columns srv table) <> Exhausted
        /\ snd (MySQLDBMS.iter_keys srv table) <> Exhausted)
  /\ (forall (globals : list string) (db : sqlite_database) (table : string),
        snd (SQLiteDBMS.iter_table_names db) <> Exhausted
        /\ snd (SQLiteDBMS.iter_columns db table) <> Exhausted
        /\ snd (SQLiteDBMS.iter_keys globals db table) <> Exhausted).
Proof.
  split; [intros A B rows mapfn; split; [apply mysql_iter_rows | apply sqlite_iter_rows]|].
  assert (Hm : forall srv : mysql_server,
             MySQLDBMS.iter_table_names srv
             = (show_tables srv,
                Raised (RuntimeError "generator raised StopIteration"))).
  { intros srv. unfold MySQLDBMS.iter_table_names.
    now rewrite mysql_iter_rows, map_id. }
  assert (Hs : forall db : sqlite_database,
             SQLiteDBMS.iter_table_names db
             = (map m_name
                    (List.filter (fun r => String.eqb (m_type r) "table")
                                 (sqlite_master db)),
                Raised (RuntimeError "generator raised StopIteration"))).
  { intros db. unfold SQLiteDBMS.iter_table_names. apply sqlite_iter_rows. }
  split; [exact Hm|]. split; [exact Hs|]. split.
  - intros srv table. rewrite Hm, mysql_iter_columns_raises, iter_keys_by_groups.
    split; [discriminate|]. split; [discriminate|].
    destruct (forallb in_sequence _); discriminate.
  - intros globals db table. rewrite Hs, sqlite_iter_columns_rows.
    split; [discriminate|]. split; [discriminate|].
    unfold SQLiteDBMS.iter_keys. rewrite sqlite_iter_rows. cbn [fst snd].
    apply sqlite_loop_end. discriminate.
Qed.

(** ** What MySQLDBMS.iter_keys reports *)

Lemma group_rows_concat (rows : list key_row) : concat (group_rows rows) = rows.
Proof. destruct rows as [|r rows]; [reflexivity|]. apply group_aux_concat. Qed.

Lemma group_rows_one_key (rows : list key_row) : Forall one_key (group_rows rows).
Proof.
  destruct rows as [|r rows]; [constructor|].
  apply group_aux_one_key. now constructor.
Qed.

Lemma group_rows_names_change (rows : list key_row) : names_change (group_rows rows).
Proof.
  destruct rows as [|r rows]; [exact I|].
  now apply group_aux_names_change.
Qed.

Lemma fields_entry_of (g : list key_row) : fields (entry_of g) = map kr_column_name g.
Proof. now destruct g. Qed.

Lemma concat_fields_entries (groups : list (list key_row)) :
  concat (map fields (map entry_of groups)) = map kr_column_name (concat groups).
Proof.
  rewrite map_map, (map_ext _ _ fields_entry_of). symmetry. apply concat_map.
Qed.

(** What [take_while] leaves behind. *)
Lemma take_while_rest {A} (p : A -> bool) (l : list A) :
  exists rest : list A,
    l = (take_while p l ++ rest)%list
    /\ (forallb p l = false -> exists x rest', rest = x :: rest').
Proof.
  induction l as [|y l (rest & Hl & Hrest)]; cbn [take_while forallb].
  - exists []. split; [reflexivity | discriminate].
  - destruct (p y); cbn [andb].
    + exists rest. split; [cbn [app]; now rewrite <- Hl | exact Hrest].
    + exists (y :: l). split; [reflexivity|]. intros _. now exists y, l.
Qed.

(** The names of the last two groups differ. *)
Lemma names_change_last (groups : list (list key_row)) (g1 g2 : list key_row) :
  names_change (groups ++ [g1; g2]) ->
  key_name (entry_of g1) <> key_name (entry_of g2).
Proof.
  induction groups as [|g groups IH].
  - cbn [app names_change]. now intros [H _].
  - destruct groups as [|g' groups].
    + cbn [app names_change]. now intros (_ & H & _).
    + intros H. apply IH. cbn [app names_change] in H |- *. exact (proj2 H).
Qed.

(** X4: MySQLDBMS.iter_keys never reports the primary key, never a key
    without fields, and never every key: the fields of the keys it yields,
    put end to end, are the columns of the first of the non-primary rows of
    SHOW KEYS, in the order of the rows, and as soon as there is such a
    row some rows at the end are reported in no key.  When the sequence
    numbers are all right, so that it ends with RuntimeError, the rows left
    out are those of one key name, which is not the name of the last key
    yielded: the last key of the table is the one lost. *)
Theorem mysql_keys_incomplete (srv : mysql_server) (table : string) :
  let rows := MySQLDBMS.show_other_keys srv table in
  let keys := MySQLDBMS.iter_keys srv table in
  Forall (fun y => key_name y <> "PRIMARY" /\ fields y <> []) (fst keys)
  /\ exists kept lost : list key_row,
      rows = (kept ++ lost)%list
      /\ concat (map fields (fst keys)) = map kr_column_name kept
      /\ (rows <> [] -> lost <> [])
      /\ (snd keys = Raised (RuntimeError "generator raised StopIteration") ->
          exists name : string,
            Forall (fun r => kr_key_name r = name) lost
            /\ forall y : key_descriptor,
                 last (fst keys) = Some y -> key_name y <> name).
Proof.
  intros rows keys. subst keys. rewrite iter_keys_by_groups. fold rows.
  assert (Hrows : forall r, In r rows
                            <-> In r (show_keys_from srv table)
                                /\ kr_key_name r <> "PRIMARY").
  { intros r. unfold rows, MySQLDBMS.show_other_keys.
    rewrite filter_In, negb_true_iff, String.eqb_neq. reflexivity. }
  pose proof (group_rows_concat rows) as Hconcat.
  pose proof (group_rows_one_key rows) as Hone.
  pose proof (group_rows_names_change rows) as Hnames.
  assert (Hyield : forall groups rest,
             group_rows rows = (groups ++ rest)%list ->
             Forall (fun y => key_name y <> "PRIMARY" /\ fields y <> [])
                    (map entry_of groups)).
  { intros groups rest Heq. apply List.Forall_forall. intros y Hy.
    apply in_map_iff in Hy as (g & <- & Hg).
    assert (Hin : In g (group_rows rows)) by (rewrite Heq; apply in_or_app; now left).
    destruct (proj1 (List.Forall_forall _ _) Hone g Hin) as [Hne _].
    destruct g as [|r g]; [contradiction|]. split; [|discriminate].
    cbn [entry_of key_name]. apply (Hrows r). rewrite <- Hconcat.
    apply in_concat. exists (r :: g). split; [exact Hin | now left]. }
  destruct (forallb in_sequence (group_rows rows)) eqn:Hall; cbn [fst snd].
  - destruct (group_rows rows) as [|g0 groups0] eqn:Hgroups.
    + cbn [removelast map]. split; [constructor|].
      exists [], []. cbn [concat] in Hconcat.
      split; [now rewrite <- Hconcat|]. split; [reflexivity|].
      split; [intros H; now rewrite <- Hconcat in H|].
      intros _. exists "". split; [constructor | intros y Hy; discriminate Hy].
    + assert (Hsplit : g0 :: groups0
                       = (removelast (g0 :: groups0) ++ [List.last (g0 :: groups0) []])%list)
        by (apply app_removelast_last; discriminate).
      set (kept := removelast (g0 :: groups0)) in *.
      set (g := List.last (g0 :: groups0) []) in *.
      split; [exact (Hyield kept [g] Hsplit)|].
      assert (Hg : one_key g).
      { apply (proj1 (List.Forall_forall _ _) Hone g).
        rewrite Hsplit. apply in_or_app. right. now left. }
      exists (concat kept), g.
      split; [rewrite <- Hconcat, Hsplit, concat_app; cbn [concat];
              now rewrite app_nil_r|].
      split; [apply concat_fields_entries|].
      split; [intros _; exact (proj1 Hg)|].
      intros _. exists (key_name (entry_of g)). split; [exact (proj2 Hg)|].
      intros y Hy.
      destruct kept as [|k0 kept0] eqn:Hkept; [discriminate Hy|].
      assert (Hk : k0 :: kept0
                   = (removelast (k0 :: kept0) ++ [List.last (k0 :: kept0) []])%list)
        by (apply app_removelast_last; discriminate).
      rewrite Hk, map_app in Hy. cbn [map] in Hy.
      rewrite last_snoc in Hy. injection Hy as <-.
      apply (names_change_last (removelast (k0 :: kept0))).
      rewrite Hsplit, Hk, <- app_assoc in Hnames. exact Hnames.
  - destruct (take_while_rest in_sequence (group_rows rows)) as (rest & Heq & Hrest).
    destruct (Hrest Hall) as (g & rest' & ->).
    split; [exact (Hyield _ _ Heq)|].
    exists (concat (take_while in_sequence (group_rows rows))), (concat (g :: rest')).
    split; [now rewrite <- Hconcat, Heq at 1; rewrite concat_app|].
    split; [apply concat_fields_entries|].
    split; [|intros H; discriminate H].
    intros _. cbn [concat].
    assert (Hg : one_key g).
    { apply (proj1 (List.Forall_forall _ _) Hone g).
      rewrite Heq. apply in_or_app. right. now left. }
    destruct g as [|r g]; [now destruct Hg|]. discriminate.
Qed.

(** ** What SQLiteDBMS.iter_keys yields *)

(** X5: as the module stands, with re never imported, SQLiteDBMS.iter_keys
    yields no descriptor whatever the database and the table, and always
    ends with an exception: RuntimeError when sqlite_master holds no index
    row, NameError at the first row otherwise. *)
Theorem sqlite_iter_keys_as_written (db : sqlite_database) (table : string) :
  let keys := SQLiteDBMS.iter_keys module_globals db table in
  fst keys = []
  /\ (SQLiteDBMS.select_index_sql db = [] ->
      snd keys = Raised (RuntimeError "generator raised StopIteration"))
  /\ (SQLiteDBMS.select_index_sql db <> [] -> snd keys = Raised (NameError "re")).
Proof.
  intros keys. subst keys. unfold SQLiteDBMS.iter_keys.
  rewrite sqlite_iter_rows, map_id. cbn [fst snd].
  destruct (SQLiteDBMS.select_index_sql db) as [|item items].
  - repeat split. intros H. now contradiction H.
  - repeat split. intros H. discriminate H.
Qed.

Lemma key_of_item_def (globals : list string) (d : index_def) :
  bound globals "re" = true -> well_formed d = true ->
  SQLiteDBMS.key_of_item globals (Some (ddl_of d)) = Ok (key_of_def d).
Proof.
  intros Hre Hd. unfold well_formed in Hd. rewrite !andb_true_iff in Hd.
  destruct Hd as [[[[[[[[[[Hc Hu] Hi] Ho] Hname] Hnamew] Htbl] Htblw] Hgap] Hfs] Hbody].
  apply negb_true_iff, String.eqb_neq in Hname, Htbl, Hbody.
  unfold SQLiteDBMS.key_of_item, ddl_of. rewrite Hre. cbn [negb].
  rewrite search_index_ddl by assumption.
  cbn [group1 group2 group3 group4].
  assert (Hsplit : split "," (String.concat "," (map field_text (written d)))
                   = map field_text (written d)).
  { apply (split_concat ",").
    - intros Hnil. apply Hbody. now rewrite Hnil.
    - rewrite forallb_map. revert Hfs. apply forallb_weaken.
      intros f Hf. apply all_chars_weaken with (p := not_among [","; ")"]%char);
        [|exact (field_text_plain f Hf)].
      intros c. unfold not_among. cbn [existsb]. rewrite orb_false_r, negb_orb.
      intros H. now apply andb_true_iff in H as [H _]. }
  rewrite Hsplit, map_map.
  assert (Hstrip : map (fun f => strip (field_text f)) (written d)
                   = map field (written d)).
  { clear - Hfs. induction (written d) as [|f fs IH]; [reflexivity|].
    cbn [forallb] in Hfs. apply andb_true_iff in Hfs as [Hf Hfs].
    cbn [map]. now rewrite (strip_written f Hf), (IH Hfs). }
  rewrite Hstrip. unfold key_of_def. now destruct (is_unique d).
Qed.

Lemma sqlite_loop_defs (globals : list string) (defs : list index_def)
      (items : list (option string)) (stop : ending) :
  bound globals "re" = true -> forallb well_formed defs = true ->
  SQLiteDBMS.iter_keys_loop globals (map (fun d => Some (ddl_of d)) defs ++ items) stop
  = ((map key_of_def defs ++ fst (SQLiteDBMS.iter_keys_loop globals items stop))%list,
     snd (SQLiteDBMS.iter_keys_loop globals items stop)).
Proof.
  intros Hre. induction defs as [|d defs IH]; intros Hdefs.
  - cbn [map app]. now destruct (SQLiteDBMS.iter_keys_loop globals items stop).
  - cbn [forallb] in Hdefs. apply andb_true_iff in Hdefs as [Hd Hdefs].
    cbn [map app SQLiteDBMS.iter_keys_loop].
    rewrite (key_of_item_def globals d Hre Hd), (IH Hdefs). reflexivity.
Qed.

(** X6: with the name re bound, SQLiteDBMS.iter_keys yields one descriptor
    per index row of sqlite_master, in the order of the rows and for every
    table alike, as long as the rows hold well formed index definitions, and
    ends with RuntimeError after the last of them; the first row that does
    not hold one (a NULL text, as an automatic index has, or a text the
    pattern does not match) ends it with TypeError or AttributeError after
    the descriptors of the rows before it. *)
Theorem sqlite_iter_keys_rows
        (globals : list string) (db : sqlite_database) (table : string)
        (defs : list index_def) :
  bound globals "re" = true ->
  forallb well_formed defs = true ->
  let texts := map (fun d => Some (ddl_of d)) defs in
  (SQLiteDBMS.select_index_sql db = texts ->
   SQLiteDBMS.iter_keys globals db table
   = (map key_of_def defs, Raised (RuntimeError "generator raised StopIteration")))
  /\ (forall rest : list (option string),
        SQLiteDBMS.select_index_sql db = (texts ++ None :: rest)%list ->
        SQLiteDBMS.iter_keys globals db table
        = (map key_of_def defs, Raised TypeError))
  /\ (forall (text : string) (rest : list (option string)),
        SQLiteDBMS.select_index_sql db = (texts ++ Some text :: rest)%list ->
        SQLiteDBMS.search_index text = None ->
        SQLiteDBMS.iter_keys globals db table
        = (map key_of_def defs, Raised AttributeError)).
Proof.
  intros Hre Hdefs texts. subst texts. unfold SQLiteDBMS.iter_keys.
  rewrite sqlite_iter_rows, map_id. cbn [fst snd].
  split; [|split].
  - intros ->. rewrite <- (app_nil_r (map _ defs)) at 1.
    rewrite (sqlite_loop_defs globals defs [] _ Hre Hdefs).
    cbn [SQLiteDBMS.iter_keys_loop fst snd]. now rewrite app_nil_r.
  - intros rest ->. rewrite (sqlite_loop_defs globals defs _ _ Hre Hdefs).
    cbn [SQLiteDBMS.iter_keys_loop]. unfold SQLiteDBMS.key_of_item.
    rewrite Hre. cbn [negb fst snd]. now rewrite app_nil_r.
  - intros text rest -> Hno. rewrite (sqlite_loop_defs globals defs _ _ Hre Hdefs).
    cbn [SQLiteDBMS.iter_keys_loop]. unfold SQLiteDBMS.key_of_item.
    rewrite Hre, Hno. cbn [negb fst snd]. now rewrite app_nil_r.
Qed.

Lemma sqlite_iter_keys_rows_witness :
  SQLiteDBMS.iter_keys ("re" :: module_globals) sample_database "t"
  = (map key_of_def [sample_index],
     Raised (RuntimeError "generator raised StopIteration")).
Proof.
  apply (proj1 (sqlite_iter_keys_rows ("re" :: module_globals) sample_database "t"
                                      [sample_index] eq_refl eq_refl)).
  reflexivity.
Defined.

(** ** BulkInserter: batches *)

Lemma chunk_aux_concat {A} (n : nat) (l : list A) :
  forall cur : list A, concat (chunk_aux n cur l) = (cur ++ l)%list.
Proof.
  induction l as [|x l IH]; intros cur; cbn [chunk_aux].
  - destruct cur; cbn [concat]; now rewrite ?app_nil_r.
  - destruct (length cur =? n)%nat.
    + cbn [concat]. now rewrite IH.
    + now rewrite IH, <- app_assoc.
Qed.

Lemma chunk_aux_sizes {A} (n : nat) (l : list A) :
  (1 <= n)%nat ->
  forall cur : list A,
    (length cur <= n)%nat ->
    Forall (fun c => (1 <= length c <= n)%nat) (chunk_aux n cur l).
Proof.
  intros Hn. induction l as [|x l IH]; intros cur Hcur; cbn [chunk_aux].
  - destruct cur as [|y cur]; constructor; [|constructor].
    cbn [length] in *. lia.
  - destruct (Nat.eqb_spec (length cur) n) as [Hfull|Hroom].
    + constructor; [lia|]. apply IH. cbn [length]. lia.
    + apply IH. rewrite length_app. cbn [length]. lia.
Qed.

Lemma chunk_aux_not_nil {A} (n : nat) (l : list A) :
  forall (y : A) (cur : list A), chunk_aux n (y :: cur) l <> [].
Proof.
  induction l as [|x l IH]; intros y cur; cbn [chunk_aux]; [discriminate|].
  destruct (length (y :: cur) =? n)%nat; [discriminate|].
  change ((y :: cur) ++ [x])%list with (y :: (cur ++ [x]))%list. apply IH.
Qed.

Lemma chunk_aux_full {A} (n : nat) (l : list A) :
  forall cur : list A, full_but_last n (chunk_aux n cur l).
Proof.
  induction l as [|x l IH]; intros cur; cbn [chunk_aux].
  - destruct cur; exact I.
  - destruct (Nat.eqb_spec (length cur) n) as [Hfull|Hroom]; [|apply IH].
    pose proof (IH [x]) as Hrest. pose proof (chunk_aux_not_nil n l x []) as Hne.
    destruct (chunk_aux n [x] l) as [|c cs]; [contradiction|].
    split; [exact Hfull | exact Hrest].
Qed.

Section Batches.

Variable conn : DBMS.
Variable table : string.
Variable names : list string.
Variable ignore : bool.

Abbreviation at_ := (inserter_at conn table names ignore).
Abbreviation fresh := (__init__ conn table names ignore).

(** A run of [add_record] calls closed by [done_insert], from any steady
    state, on a server that accepts every statement. *)
Lemma run_batches (recs : list record_arg) :
  forall (rows : list (list string)) (cur : option nat)
         (buffer : list (list string)) (t : trace),
    map (build_record fresh) recs = map Ok rows ->
    (length buffer <= 500)%nat ->
    buffer = [] \/ is_Some cur ->
    let st := run_calls accepts_all (map AddRecord recs ++ [DoneInsert])
                        (at_ cur buffer, t) in
    executed (snd st)
    = (executed t ++ map (insert_text ignore table names)
                         (chunk_aux 500 buffer rows))%list
    /\ field_values (fst st) = [].
Proof.
  induction recs as [|r recs IH]; intros rows cur buffer t Hrows Hlen Hcur st;
    subst st.
  - destruct rows; [|discriminate Hrows].
    cbn [map app run_calls run_call chunk_aux]. rewrite done_insert_at.
    destruct buffer as [|row buffer].
    + cbn [snd fst map]. now rewrite app_nil_r.
    + destruct Hcur as [Hnil|[n ->]]; [discriminate Hnil|].
      cbv zeta.
      rewrite (eq_refl : accepts_all t (insert_text ignore table names (row :: buffer))
                         = false).
      cbn [snd fst map]. rewrite executed_app. split; reflexivity.
  - destruct rows as [|row rows]; [discriminate Hrows|].
    cbn [map] in Hrows. injection Hrows as Hrow Hrows.
    cbn [map app run_calls run_call]. rewrite add_record_eq.
    cbn [field_values insert_limit inserter_at chunk_aux].
    destruct (Nat.eqb_spec (length buffer) 500) as [Hfull|Hroom].
    + rewrite done_insert_at.
      destruct buffer as [|row0 buffer]; [discriminate Hfull|].
      destruct Hcur as [Hnil|[n ->]]; [discriminate Hnil|].
      cbv zeta.
      rewrite (eq_refl : accepts_all t (insert_text ignore table names (row0 :: buffer))
                         = false).
      rewrite buffer_record_at, Hrow. cbv zeta. cbn [snd app].
      match goal with
      | |- context [run_calls _ _ (inserter_at _ _ _ _ ?c ?b, ?u)] =>
          destruct (IH rows c b u Hrows) as [Hexec Hbuf];
            [cbn [length]; lia | right; eauto |]
      end.
      split; [|exact Hbuf]. rewrite Hexec, !executed_app. cbn [map].
      cbn [executed omap list_omap statement_of app]. now rewrite <- !app_assoc.
    + rewrite buffer_record_at, Hrow. cbv zeta. cbn [snd].
      match goal with
      | |- context [run_calls _ _ (inserter_at _ _ _ _ ?c ?b, ?u)] =>
          destruct (IH rows c b u Hrows) as [Hexec Hbuf];
            [rewrite length_app; cbn [length]; lia | right; eauto |]
      end.
      split; [|exact Hbuf]. rewrite Hexec. f_equal.
      destruct cur; [reflexivity|]. rewrite executed_app. cbn. now rewrite app_nil_r.
Qed.

End Batches.

(** X7: records are delivered once, in order, in batches of 500: on a
    server that accepts every statement, adding any number of records to a
    fresh inserter and then calling done_insert executes one INSERT per
    piece of the list of escaped rows cut every 500 rows, in order, and
    leaves the buffer empty; the pieces put end to end are the rows, each
    holds between 1 and 500 rows, and all but the last hold exactly 500. *)
Theorem bulk_insert_batches
        (conn : DBMS) (table : string) (names : list string) (ignore : bool)
        (t0 : trace) (recs : list record_arg) (rows : list (list string)) :
  map (build_record (__init__ conn table names ignore)) recs = map Ok rows ->
  let st := run_calls accepts_all (map AddRecord recs ++ [DoneInsert])
                      (__init__ conn table names ignore, t0) in
  let batches := chunks 500 rows in
  executed (snd st)
  = (executed t0 ++ map (insert_text ignore table names) batches)%list
  /\ field_values (fst st) = []
  /\ concat batches = rows
  /\ Forall (fun b => (1 <= length b <= 500)%nat) batches
  /\ full_but_last 500 batches.
Proof.
  intros Hrows st batches. subst st batches. unfold chunks.
  destruct (run_batches conn table names ignore recs rows None [] t0 Hrows)
    as [Hexec Hbuf]; [cbn [length]; lia | now left |].
  split; [exact Hexec|]. split; [exact Hbuf|].
  split; [apply chunk_aux_concat|].
  split; [apply chunk_aux_sizes; cbn [length]; lia | apply chunk_aux_full].
Qed.

Lemma bulk_insert_batches_witness :
  executed
    (snd (run_calls accepts_all
                    (map AddRecord (sample_records ++ [AsSeq [VInt 2]]) ++ [DoneInsert])
                    (__init__ mysql_backend "T" ["a"] false, [])))
  = [ insert_text false "T" ["a"] sample_rows;
      insert_text false "T" ["a"] [[MySQLDBMS.string (VInt 2)]] ].
Proof.
  destruct (bulk_insert_batches
              mysql_backend "T" ["a"] false []
              (sample_records ++ [AsSeq [VInt 2]])
              (sample_rows ++ [[MySQLDBMS.string (VInt 2)]])) as [Hexec _].
  - vm_compute. reflexivity.
  - etransitivity; [exact Hexec | vm_compute; reflexivity].
Defined.

(** ** BulkInserter: a refused statement, records given as dicts *)

(** X8: a statement the server refuses costs no record: done_insert raises
    and leaves the inserter as it was, buffer and cursor kept (the cursor is
    not closed), so the next attempt sends the same statement again; when
    this happens to the flush inside add_record at the ceiling, add_record
    raises as well and the new record is not buffered. *)
Theorem refused_flush_keeps_buffer
        (refuses : trace -> string -> bool) (self : BulkInserter) (t : trace)
        (c : nat) :
  field_values self <> [] ->
  cursor self = Some c ->
  refuses t (build_insert self) = true ->
  let failure :=
    (Raise (DatabaseError (build_insert self)),
     (self, (t ++ [Failed c (build_insert self)])%list)) in
  done_insert refuses (self, t) = failure
  /\ (length (field_values self) = insert_limit self ->
      forall r : record_arg, add_record refuses r (self, t) = failure).
Proof.
  intros Hfv Hc Href failure. subst failure.
  assert (Hdone : done_insert refuses (self, t)
                  = (Raise (DatabaseError (build_insert self)),
                     (self, (t ++ [Failed c (build_insert self)])%list))).
  { rewrite done_insert_eq, Hc. cbv zeta. rewrite Href.
    destruct (field_values self); [contradiction|reflexivity]. }
  split; [exact Hdone|].
  intros Hfull r. rewrite add_record_eq, Hfull, Nat.eqb_refl, Hdone. reflexivity.
Qed.

Lemma refused_flush_keeps_buffer_witness :
  done_insert (fun _ _ => true)
              (inserter_at mysql_backend "T" ["a"] false (Some 0%nat) [["1"]], [])
  = (Raise (DatabaseError "insert into T (a) values (1)"),
     (inserter_at mysql_backend "T" ["a"] false (Some 0%nat) [["1"]],
      [Failed 0 "insert into T (a) values (1)"])).
Proof.
  apply (refused_flush_keeps_buffer
           (fun _ _ => true)
           (inserter_at mysql_backend "T" ["a"] false (Some 0%nat) [["1"]]) [] 0%nat);
    [discriminate | reflexivity | reflexivity].
Defined.

Lemma collect_dict (conn : DBMS) (d : gmap string pyval) (names : list string) :
  forall (vals : list pyval) (acc : list string),
    map (fun f => d !! f) names = map Some vals ->
    collect (fun field_name =>
               res_bind (dict_get d field_name) (fun v => Ok (dbms_string conn v)))
            names acc
    = Ok (acc ++ map (dbms_string conn) vals)%list.
Proof.
  induction names as [|f names IH]; intros vals acc Hvals.
  - destruct vals; [|discriminate Hvals]. cbn. now rewrite app_nil_r.
  - destruct vals as [|v vals]; [discriminate Hvals|].
    cbn [map] in Hvals. injection Hvals as Hf Hvals.
    cbn [collect]. unfold dict_get at 1. rewrite Hf. cbn [res_bind].
    rewrite (IH vals _ Hvals), <- app_assoc. reflexivity.
Qed.

Lemma collect_missing (conn : DBMS) (d : gmap string pyval) (f : string)
      (post : list string) :
  forall (pre : list string) (acc : list string),
    List.Forall (fun g => is_Some (d !! g)) pre ->
    d !! f = None ->
    collect (fun field_name =>
               res_bind (dict_get d field_name) (fun v => Ok (dbms_string conn v)))
            (pre ++ f :: post) acc
    = Raise (KeyError f).
Proof.
  induction pre as [|g pre IH]; intros acc Hpre Hf.
  - cbn [app collect]. unfold dict_get. now rewrite Hf.
  - inversion Hpre as [|x xs [v Hg] Hrest]. subst x xs.
    cbn [app collect]. unfold dict_get at 1. rewrite Hg. cbn [res_bind].
    now apply IH.
Qed.

Lemma ensure_cursor_settings (st : BulkInserter * trace) :
  sql (fst (ensure_cursor st)) = sql (fst st)
  /\ field_names (fst (ensure_cursor st)) = field_names (fst st)
  /\ field_values (fst (ensure_cursor st)) = field_values (fst st).
Proof. unfold ensure_cursor. destruct (cursor (fst st)); repeat split. Qed.

(** X9: add_record takes the values of a dict by the field names, in the
    order of the field list, and ignores any other key: when the dict holds
    every field name, the call does what the call with the list of those
    values does.  When a field name is missing, add_record raises KeyError
    for the first missing one and buffers nothing (below the ceiling the
    buffer is as before). *)
Theorem add_record_dict
        (refuses : trace -> string -> bool) (self : BulkInserter) (t : trace)
        (d : gmap string pyval) :
  (forall vals : list pyval,
      map (fun f => d !! f) (field_names self) = map Some vals ->
      add_record refuses (AsDict d) (self, t)
      = add_record refuses (AsSeq vals) (self, t))
  /\ (forall (pre : list string) (f : string) (post : list string),
        field_names self = (pre ++ f :: post)%list ->
        List.Forall (fun g => is_Some (d !! g)) pre ->
        d !! f = None ->
        length (field_values self) <> insert_limit self ->
        fst (add_record refuses (AsDict d) (self, t)) = Raise (KeyError f)
        /\ field_values (fst (snd (add_record refuses (AsDict d) (self, t))))
           = field_values self).
Proof.
  split.
  - intros vals Hvals.
    assert (Hbuf : forall st, sql (fst st) = sql self ->
                              field_names (fst st) = field_names self ->
                              buffer_record (AsDict d) st = buffer_record (AsSeq vals) st).
    { intros st Hsql Hnames. unfold buffer_record.
      destruct (ensure_cursor_settings st) as (Hs & Hn & _).
      unfold build_record. rewrite Hs, Hn, Hsql, Hnames.
      now rewrite (collect_dict (sql self) d _ vals [] Hvals), collect_total. }
    rewrite !add_record_eq.
    destruct (length (field_values self) =? insert_limit self)%nat;
      [|now apply Hbuf].
    rewrite done_insert_eq.
    destruct (field_values self); [now apply Hbuf|].
    destruct (cursor self); [|reflexivity].
    cbv zeta. destruct (refuses t (build_insert self)); [reflexivity|].
    now apply Hbuf.
  - intros pre f post Hnames Hpre Hf Hroom.
    rewrite add_record_eq.
    destruct (Nat.eqb_spec (length (field_values self)) (insert_limit self));
      [contradiction|].
    unfold buffer_record.
    destruct (ensure_cursor_settings (self, t)) as (Hs & Hn & Hv).
    unfold build_record. rewrite Hn. cbn [fst]. rewrite Hnames.
    rewrite (collect_missing _ d f post pre [] Hpre Hf).
    cbn [fst snd]. split; [reflexivity | exact Hv].
Qed.

Lemma add_record_dict_witness :
  add_record accepts_all (AsDict {[ "b" := VInt 2; "a" := VInt 1; "z" := VNone ]})
             (__init__ mysql_backend "T" ["a"; "b"] false, [])
  = add_record accepts_all (AsSeq [VInt 1; VInt 2])
               (__init__ mysql_backend "T" ["a"; "b"] false, [])
  /\ fst (add_record accepts_all (AsDict {[ "a" := VInt 1 ]})
                     (__init__ mysql_backend "T" ["a"; "b"] false, []))
     = Raise (KeyError "b").
Proof.
  split.
  - apply (proj1 (add_record_dict accepts_all
                                  (__init__ mysql_backend "T" ["a"; "b"] false) []
                                  {[ "b" := VInt 2; "a" := VInt 1; "z" := VNone ]})).
    vm_compute. reflexivity.
  - apply (proj2 (add_record_dict accepts_all
                                  (__init__ mysql_backend "T" ["a"; "b"] false) []
                                  {[ "a" := VInt 1 ]}) ["a"] "b" []).
    + reflexivity.
    + constructor; [|constructor]. vm_compute. eauto.
    + vm_compute. reflexivity.
    + vm_compute. discriminate.
Defined.

(** ** BulkInserter: cursors *)

Lemma still_open_app (t l : trace) :
  still_open (t ++ l)%list = fold_left track l (still_open t).
Proof. unfold still_open. apply fold_left_app. Qed.

Section Cursors.

Variable refuses : trace -> string -> bool.
Variable conn : DBMS.
Variable table : string.
Variable names : list string.
Variable ignore : bool.

Abbreviation at_ := (inserter_at conn table names ignore).
Abbreviation fresh := (__init__ conn table names ignore).
Abbreviation tidy := (tidy_inserter conn table names ignore).

Lemma tidy_buffer_record (r : record_arg) (c : option nat)
      (buffer : list (list string)) (t : trace) :
  (length buffer < 500)%nat ->
  still_open t = held (at_ c buffer) ->
  tidy (snd (buffer_record r (at_ c buffer, t))).
Proof.
  intros Hlt Hopen. rewrite buffer_record_at. cbv zeta.
  assert (Hnow : still_open match c with
                            | None => (t ++ [OpenCursor (opened t)])%list
                            | Some _ => t
                            end
                 = [match c with None => opened t | Some n => n end]).
  { destruct c as [n|]; [exact Hopen|].
    rewrite still_open_app, Hopen. reflexivity. }
  destruct (build_record fresh r) as [row|e]; cbn [snd];
    eexists _, _; (split; [reflexivity|]); cbn [snd fst];
    (split; [|split; [right; eauto | exact Hnow]]).
  - rewrite length_app; cbn [length]; lia.
  - lia.
Qed.

Lemma tidy_call (c : call) (st : BulkInserter * trace) :
  tidy st -> tidy (snd (run_call refuses c st)).
Proof.
  destruct st as [self t]. intros (cur & buffer & Hself & Hlen & Hcur & Hopen).
  cbn [fst snd] in Hself, Hopen. subst self.
  assert (Hflush : forall n stmt,
             still_open t = [n] ->
             still_open (t ++ [Execute n stmt; CloseCursor n])%list = []).
  { intros n stmt Hn. rewrite still_open_app, Hn. cbn [fold_left track List.filter].
    now rewrite Nat.eqb_refl. }
  assert (Hfailed : forall n stmt, still_open (t ++ [Failed n stmt])%list = still_open t).
  { intros n stmt. now rewrite still_open_app. }
  destruct c as [r|]; cbn [run_call].
  - rewrite add_record_eq. cbn [field_values insert_limit inserter_at].
    destruct (Nat.eqb_spec (length buffer) 500) as [Hfull|Hroom].
    + rewrite done_insert_at.
      destruct buffer as [|row rows]; [discriminate Hfull|].
      destruct Hcur as [Hnil|[n ->]]; [discriminate Hnil|].
      cbv zeta. destruct (refuses t _).
      * cbn [snd]. exists (Some n), (row :: rows). cbn [fst snd].
        split; [reflexivity|]. split; [exact Hlen|]. split; [right; eauto|].
        now rewrite Hfailed.
      * apply tidy_buffer_record; [cbn [length]; lia|].
        now apply Hflush.
    + apply tidy_buffer_record; [lia | exact Hopen].
  - rewrite done_insert_at.
    destruct buffer as [|row rows]; [|destruct cur as [n|]].
    + cbn [snd]. exists cur, []. cbn [fst snd].
      split; [reflexivity|]. split; [exact Hlen|]. split; [now left | exact Hopen].
    + cbv zeta. destruct (refuses t _); cbn [snd].
      * exists (Some n), (row :: rows). cbn [fst snd].
        split; [reflexivity|]. split; [exact Hlen|]. split; [right; eauto|].
        now rewrite Hfailed.
      * exists None, []. cbn [fst snd].
        split; [reflexivity|]. split; [cbn [length]; lia|]. split; [now left|].
        now apply Hflush.
    + cbn [snd]. exists None, (row :: rows). cbn [fst snd].
      split; [reflexivity|]. split; [exact Hlen|]. split; [exact Hcur | exact Hopen].
Qed.

Lemma tidy_calls (cs : list call) (st : BulkInserter * trace) :
  tidy st -> tidy (run_calls refuses cs st).
Proof.
  revert st; induction cs as [|c cs IH]; intros st Hst; [exact Hst|].
  cbn [run_calls]. apply IH, tidy_call, Hst.
Qed.

End Cursors.

(** X10: an inserter never has more than one cursor open, and never loses
    one: whatever calls of add_record and done_insert follow its
    construction on an unused connection, and whether or not some of them
    raised, the cursors opened and not yet closed are exactly the one the
    inserter holds, none when it holds none (as after every flush that
    succeeded). *)
Theorem one_cursor_at_most
        (refuses : trace -> string -> bool) (conn : DBMS) (table : string)
        (names : list string) (ignore : bool) (calls : list call) :
  let st := run_calls refuses calls (__init__ conn table names ignore, []) in
  still_open (snd st) = held (fst st)
  /\ (length (still_open (snd st)) <= 1)%nat
  /\ (field_values (fst st) <> [] -> exists c, still_open (snd st) = [c]).
Proof.
  intros st.
  destruct (tidy_calls refuses conn table names ignore calls
                       (__init__ conn table names ignore, []))
    as (cur & buffer & Hself & _ & Hcur & Hopen).
  { exists None, []. cbn [fst snd length]. repeat split; [lia | now left]. }
  fold st in Hself, Hopen. rewrite Hopen, Hself.
  cbn [field_values inserter_at]. unfold held. cbn [cursor inserter_at].
  split; [reflexivity|]. split.
  - destruct cur; cbn [length]; lia.
  - intros Hne. destruct Hcur as [Hnil|[c ->]]; [contradiction|]. eauto.
Qed.

(** ** parse_dbms_params: what reaches the constructor *)

Lemma convert_has_type (f : converter) (value : string) (v : pyval) :
  convert f value = Ok v -> has_type f v = true.
Proof.
  destruct f; cbn [convert].
  - intros H. now injection H as <-.
  - destruct (py_int value); cbn [res_bind]; intros H; try discriminate H.
    now injection H as <-.
  - destruct (parse_bool value); cbn [res_bind]; intros H; try discriminate H.
    now injection H as <-.
Qed.

Lemma classify_good (cls : dbms_class) (item k : string) (v : pyval) :
  classify cls item = Good k v ->
  k <> "create"
  /\ exists f, conn_parm_names cls !! k = Some f /\ has_type f v = true.
Proof.
  unfold classify.
  destruct (split1 "=" item) as [|keyword [|value [|x l]]]; try discriminate.
  destruct (conn_parm_names cls !! keyword) as [f|] eqn:Hf; [|discriminate].
  destruct (String.eqb_spec keyword "create") as [Hcreate|Hcreate]; [discriminate|].
  destruct (convert f value) as [w|e] eqn:Hconv; [|discriminate].
  intros H. injection H as <- <-. split; [exact Hcreate|].
  exists f. split; [exact Hf | exact (convert_has_type f value w Hconv)].
Qed.

Lemma param_loop_from_table (cls : dbms_class) (items : list string) :
  forall (m : gmap string pyval) (u : gset string)
         (m' : gmap string pyval) (u' : gset string),
    from_table cls m ->
    param_loop cls items (m, u) = Ok (m', u') ->
    from_table cls m'.
Proof.
  induction items as [|item items IH]; intros m u m' u' Hm Hloop.
  - cbn [param_loop] in Hloop. now injection Hloop as <- _.
  - cbn [param_loop] in Hloop. rewrite param_step_classify in Hloop.
    destruct (classify cls item) as [n|e|keyword|keyword v] eqn:Hitem;
      cbn [res_bind] in Hloop; try discriminate Hloop.
    + exact (IH _ _ _ _ Hm Hloop).
    + refine (IH _ _ _ _ _ Hloop). intros k w Hk.
      destruct (decide (keyword = k)) as [<-|Hne].
      * rewrite lookup_insert_eq in Hk. injection Hk as <-.
        exact (classify_good cls item keyword v Hitem).
      * rewrite lookup_insert_ne in Hk by exact Hne. exact (Hm k w Hk).
Qed.

(** What a successful [parse_dbms_params] went through. *)
Lemma parse_ok_inv (getpass : string -> string) (paramsstr doing_what : string)
      (call : connect_call) :
  parse_dbms_params getpass paramsstr doing_what = Ok call ->
  exists (dbmstype : string) (items : list string) (m : gmap string pyval),
    split ":" paramsstr = dbmstype :: items
    /\ DBMSClasses !! dbmstype = Some (call_class call)
    /\ param_loop (call_class call) items (∅, ∅) = Ok (m, ∅)
    /\ call_kwargs call = resolve_password getpass dbmstype m.
Proof.
  unfold parse_dbms_params.
  destruct (split ":" paramsstr) as [|dbmstype items]; [discriminate|].
  destruct (DBMSClasses !! dbmstype) as [cls|] eqn:Hcls; [|discriminate].
  destruct (param_loop cls items (∅, ∅)) as [[m u]|e] eqn:Hloop; [|discriminate].
  cbn [res_bind].
  destruct (Nat.eqb_spec (size u) 0) as [Hsize|Hsize]; [|discriminate].
  cbn [negb]. intros H. injection H as <-. cbn [call_class call_kwargs].
  apply size_empty_iff, leibniz_equiv in Hsize. subst u.
  exists dbmstype, items, m.
  split; [reflexivity|]. split; [exact Hcls|]. split; [exact Hloop|].
  unfold resolve_password, password_prompt.
  destruct (m !! "password") as [[| | |[|c s]|]|]; reflexivity.
Qed.

Lemma resolve_password_from_table (getpass : string -> string) (dbmstype : string)
      (cls : dbms_class) (m : gmap string pyval) :
  from_table cls m -> from_table cls (resolve_password getpass dbmstype m).
Proof.
  intros Hm. unfold resolve_password.
  destruct (m !! "password") as [[| | |[|c s]|]|] eqn:Hpw; try exact Hm.
  intros k v Hk. destruct (decide ("password" = k)) as [<-|Hne].
  - rewrite lookup_insert_eq in Hk. injection Hk as <-.
    destruct (Hm "password" (VStr "") Hpw) as (Hc & f & Hf & Ht).
    split; [exact Hc|]. exists f. split; [exact Hf|]. now destruct f.
  - rewrite lookup_insert_ne in Hk by exact Hne. exact (Hm k v Hk).
Qed.

(** X11: when parse_dbms_params gets as far as calling the constructor, the
    class is the one registered under the text before the first colon, and
    every keyword argument of the call is a key of the parameter table of
    that class other than create, with a value of the type its converter
    gives (a string, an integer for port, a boolean for write). *)
Theorem parse_dbms_params_arguments
        (getpass : string -> string) (paramsstr doing_what : string)
        (call : connect_call) :
  parse_dbms_params getpass paramsstr doing_what = Ok call ->
  (exists (dbmstype : string) (items : list string),
      split ":" paramsstr = dbmstype :: items
      /\ DBMSClasses !! dbmstype = Some (call_class call))
  /\ (forall (k : string) (v : pyval),
        call_kwargs call !! k = Some v ->
        k <> "create"
        /\ exists f : converter,
             conn_parm_names (call_class call) !! k = Some f
             /\ has_type f v = true).
Proof.
  intros Hcall.
  destruct (parse_ok_inv getpass paramsstr doing_what call Hcall)
    as (dbmstype & items & m & Hsplit & Hcls & Hloop & Hkw).
  split; [exists dbmstype, items; split; assumption|].
  rewrite Hkw. apply resolve_password_from_table.
  refine (param_loop_from_table _ items ∅ ∅ m ∅ _ Hloop).
  intros k v Hk. now rewrite lookup_empty in Hk.
Qed.

Lemma parse_dbms_params_arguments_witness :
  "port" <> "create"
  /\ exists f : converter,
       conn_parm_names MySQL !! "port" = Some f /\ has_type f (VInt 3306) = true.
Proof.
  assert (H : parse_dbms_params (fun _ => "") "mysql:host=localhost:port=3306:user=x" ""
              = Ok sample_call) by (vm_compute; reflexivity).
  apply (proj2 (parse_dbms_params_arguments _ _ _ _ H) "port" (VInt 3306)).
  vm_compute. reflexivity.
Defined.

(** ** parse_dbms_params: which error, which value *)

Lemma param_loop_app (cls : dbms_class) (a b : list string) :
  forall st : gmap string pyval * gset string,
    param_loop cls (a ++ b) st
    = res_bind (param_loop cls a st) (param_loop cls b).
Proof.
  induction a as [|x a IH]; intros st; [reflexivity|].
  cbn [app param_loop]. destruct (param_step cls st x) as [st'|e]; cbn [res_bind].
  - apply IH.
  - reflexivity.
Qed.

Lemma split1_no_sep (sep : ascii) (x : string) :
  all_chars (fun c => negb (c =? sep)%char) x = true -> split1 sep x = [x].
Proof.
  induction x as [|c x IH]; intros Hx; [reflexivity|].
  unfold all_chars in Hx. cbn [list_ascii_of_string forallb] in Hx.
  apply andb_true_iff in Hx as [Hc Hx]. apply negb_true_iff in Hc.
  cbn [split1]. now rewrite Hc, (IH Hx).
Qed.

(** X12: the errors of the items come first and in the order of the items:
    when the items before one pass (convertible or unrecognized), an item
    without an = sign makes parse_dbms_params raise the ValueError of the
    failed unpacking, and an item whose converter refuses the value makes it
    raise the error of the converter (ValueError of int or parse_bool,
    IndexError of parse_bool on an empty value), whatever follows and even
    if unrecognized names came before: GetoptError is not raised then. *)
Theorem parse_dbms_params_first_error
        (getpass : string -> string) (paramsstr doing_what dbmstype : string)
        (cls : dbms_class) (pre : list string) (bad : string) (post : list string) :
  split ":" paramsstr = dbmstype :: (pre ++ bad :: post)%list ->
  DBMSClasses !! dbmstype = Some cls ->
  forallb (passes cls) pre = true ->
  (forall n : nat,
      classify cls bad = Malformed n ->
      parse_dbms_params getpass paramsstr doing_what
      = Raise (ValueError (UnpackError n)))
  /\ (forall e : exn,
        classify cls bad = BadValue e ->
        parse_dbms_params getpass paramsstr doing_what = Raise e)
  /\ (plain_keyword bad = true -> classify cls bad = Malformed 1).
Proof.
  intros Hsplit Hcls Hpre.
  destruct (param_loop_passes cls pre ∅ ∅ Hpre) as (u & Hloop & _).
  assert (Hparse : parse_dbms_params getpass paramsstr doing_what
                   = res_bind
                       (res_bind (param_step cls (gather cls pre ∅, u) bad)
                                 (param_loop cls post))
                       (fun '(conn_params, unrecognized) =>
                          if negb (size unrecognized =? 0)%nat then
                            Raise (GetoptError
                                     (UnrecognizedParams
                                        dbmstype
                                        (String.concat "," (sorted (elements unrecognized)))
                                        doing_what))
                          else
                            Ok {| call_class := cls;
                                  call_kwargs :=
                                    resolve_password getpass dbmstype conn_params |})).
  { unfold parse_dbms_params. rewrite Hsplit, Hcls, param_loop_app, Hloop.
    cbn [res_bind param_loop].
    destruct (res_bind (param_step cls (gather cls pre ∅, u) bad) (param_loop cls post))
      as [[m w]|e]; [|reflexivity].
    cbn [res_bind]. destruct (negb (size w =? 0)%nat); [reflexivity|].
    unfold resolve_password, password_prompt.
    destruct (m !! "password") as [[| | |[|c s]|]|]; reflexivity. }
  rewrite Hparse, param_step_classify.
  split; [|split].
  - intros n ->. reflexivity.
  - intros e ->. reflexivity.
  - intros Hplain. unfold classify. now rewrite (split1_no_sep "=" bad Hplain).
Qed.

Lemma parse_dbms_params_first_error_witness :
  parse_dbms_params (fun _ => "") "mysql:bogus=1:port=abc:user" "for input"
  = Raise (ValueError (InvalidInt "abc")).
Proof.
  apply (proj1 (proj2 (parse_dbms_params_first_error
                         (fun _ => "") "mysql:bogus=1:port=abc:user" "for input"
                         "mysql" MySQL ["bogus=1"] "port=abc" ["user"]
                         eq_refl eq_refl eq_refl))).
  reflexivity.
Defined.

Lemma gather_app (cls : dbms_class) (a b : list string) (m : gmap string pyval) :
  gather cls (a ++ b) m = gather cls b (gather cls a m).
Proof. unfold gather. apply fold_left_app. Qed.

Lemma gather_cons (cls : dbms_class) (item : string) (items : list string)
      (m : gmap string pyval) :
  gather cls (item :: items) m
  = gather cls items match classify cls item with
                     | Good keyword v => <[keyword := v]> m
                     | _ => m
                     end.
Proof. reflexivity. Qed.

Lemma gather_not_given (cls : dbms_class) (k : string) (items : list string) :
  forall m : gmap string pyval,
    not_given cls k items = true -> gather cls items m !! k = m !! k.
Proof.
  induction items as [|item items IH]; intros m Hng; [reflexivity|].
  unfold not_given in Hng. cbn [forallb] in Hng.
  apply andb_true_iff in Hng as [Hitem Hitems].
  rewrite gather_cons, (IH _ Hitems).
  destruct (classify cls item) as [n|e|k'|k' v']; try reflexivity.
  apply negb_true_iff, String.eqb_neq in Hitem.
  now rewrite lookup_insert_ne.
Qed.

(** X13: a parameter given more than once counts with its last value, and
    an empty password is replaced by what the prompt returns: when every
    item is convertible, the constructor receives under each keyword the
    converted value of the last item that gives it, except that a password
    whose last value is empty is received as the text typed at the prompt
    "<backend> password: ", or "<backend> password for <database>: " when a
    database is given. *)
Theorem parse_dbms_params_last_value
        (getpass : string -> string) (paramsstr doing_what dbmstype : string)
        (cls : dbms_class) (pre : list string) (item : string) (post : list string)
        (k : string) (v : pyval) :
  split ":" paramsstr = dbmstype :: (pre ++ item :: post)%list ->
  DBMSClasses !! dbmstype = Some cls ->
  forallb (fun i => is_good (classify cls i)) (pre ++ item :: post) = true ->
  classify cls item = Good k v ->
  not_given cls k post = true ->
  exists call : connect_call,
    parse_dbms_params getpass paramsstr doing_what = Ok call
    /\ call_class call = cls
    /\ call_kwargs call !! k
       = Some (if String.eqb k "password" && is_empty_text v
               then VStr (getpass
                            (dbmstype ++ " password"
                             ++ match kwargs_of cls (pre ++ item :: post) !! "database" with
                                | Some db => " for " ++ py_str db
                                | None => ""
                                end
                             ++ ": "))
               else v).
Proof.
  intros Hsplit Hcls Hgood Hitem Hpost.
  set (items := (pre ++ item :: post)%list) in *.
  assert (Hpass : forallb (passes cls) items = true).
  { apply forallb_forall. intros i Hin. unfold passes.
    now rewrite (proj1 (forallb_forall _ _) Hgood i Hin). }
  destruct (param_loop_passes cls items ∅ ∅ Hpass) as (u & Hloop & _ & _ & Hsame).
  rewrite (Hsame Hgood) in Hloop.
  exists {| call_class := cls;
            call_kwargs := resolve_password getpass dbmstype (kwargs_of cls items) |}.
  split; [|split; [reflexivity|]].
  - unfold parse_dbms_params. rewrite Hsplit. fold items. rewrite Hcls, Hloop.
    cbn [res_bind]. rewrite size_empty. cbn [Nat.eqb negb].
    unfold resolve_password, password_prompt, kwargs_of.
    destruct (gather cls items ∅ !! "password") as [[| | |[|c s]|]|]; reflexivity.
  - cbn [call_kwargs].
    assert (Hk : kwargs_of cls items !! k = Some v).
    { unfold kwargs_of, items. rewrite gather_app, gather_cons.
      rewrite Hitem, (gather_not_given cls k post _ Hpost).
      apply lookup_insert_eq. }
    unfold resolve_password, password_prompt.
    destruct (String.eqb_spec k "password") as [->|Hne]; cbn [andb].
    + rewrite Hk. destruct v as [| | |[|c s]|]; cbn [is_empty_text]; try exact Hk.
      apply lookup_insert_eq.
    + destruct (kwargs_of cls items !! "password") as [[| | |[|c s]|]|];
        try exact Hk.
      rewrite lookup_insert_ne by congruence. exact Hk.
Qed.

Lemma parse_dbms_params_last_value_witness :
  (exists call : connect_call,
      parse_dbms_params (fun prompt => "typed at " ++ prompt)
                        "mysql:host=a:database=shop:password=:host=b" "for input"
      = Ok call
      /\ call_class call = MySQL
      /\ call_kwargs call !! "host" = Some (VStr "b"))
  /\ (exists call : connect_call,
        parse_dbms_params (fun prompt => "typed at " ++ prompt)
                          "mysql:host=a:database=shop:password=:host=b" "for input"
        = Ok call
        /\ call_class call = MySQL
        /\ call_kwargs call !! "password"
           = Some (VStr "typed at mysql password for shop: ")).
Proof.
  split.
  - apply (parse_dbms_params_last_value
             (fun prompt => "typed at " ++ prompt)
             "mysql:host=a:database=shop:password=:host=b" "for input" "mysql" MySQL
             ["host=a"; "database=shop"; "password="] "host=b" [] "host" (VStr "b"));
      reflexivity.
  - apply (parse_dbms_params_last_value
             (fun prompt => "typed at " ++ prompt)
             "mysql:host=a:database=shop:password=:host=b" "for input" "mysql" MySQL
             ["host=a"; "database=shop"] "password=" ["host=b"] "password" (VStr ""));
      reflexivity.
Defined.

(** ** The constructors of the two backends *)

Lemma rename_lookup (parms : gmap string pyval) (oldname newname k : string) :
  oldname <> newname ->
  MySQLDBMS.rename parms (oldname, newname) !! k
  = if decide (k = oldname) then None
    else if decide (k = newname)
         then match parms !! oldname with
              | Some v => Some v
              | None => parms !! newname
              end
         else parms !! k.
Proof.
  intros Hne. unfold MySQLDBMS.rename.
  destruct (parms !! oldname) as [v|] eqn:Hold.
  - destruct (decide (k = oldname)) as [->|Hko]; [apply lookup_delete_eq|].
    rewrite lookup_delete_ne by congruence.
    destruct (decide (k = newname)) as [->|Hkn]; [apply lookup_insert_eq|].
    rewrite lookup_insert_ne by congruence. reflexivity.
  - destruct (decide (k = oldname)) as [->|Hko]; [exact Hold|].
    destruct (decide (k = newname)) as [->|Hkn]; reflexivity.
Qed.

(** X14: MySQLDBMS.__init__ hands mysql.connector.connect the parameters it
    was given with database passed on as db and password as passwd (the
    value given under the old name taking the place of one given under the
    new name), never under the names database or password, with buffered
    set to True whatever was given, and every other parameter unchanged. *)
Theorem mysql_init_parameters (parms : gmap string pyval) :
  let connect := MySQLDBMS.__init__ parms in
  connect !! "buffered" = Some (VBool true)
  /\ connect !! "database" = None
  /\ connect !! "password" = None
  /\ connect !! "db" = match parms !! "database" with
                       | Some v => Some v
                       | None => parms !! "db"
                       end
  /\ connect !! "passwd" = match parms !! "password" with
                           | Some v => Some v
                           | None => parms !! "passwd"
                           end
  /\ (forall k : string,
        ~ In k ["buffered"; "database"; "password"; "db"; "passwd"] ->
        connect !! k = parms !! k).
Proof.
  intros connect. subst connect. unfold MySQLDBMS.__init__. cbn [fold_left].
  assert (Hall : forall k,
             k <> "buffered" ->
             (<["buffered" := VBool true]>
                (MySQLDBMS.rename (MySQLDBMS.rename parms ("database", "db"))
                                  ("password", "passwd")) : gmap string pyval) !! k
             = if decide (k = "password") then None
               else if decide (k = "passwd")
                    then match (if decide ("password" = "database") then None
                                else if decide ("password" = "db")
                                     then match parms !! "database" with
                                          | Some v => Some v
                                          | None => parms !! "db"
                                          end
                                     else parms !! "password") with
                         | Some v => Some v
                         | None =>
                             if decide ("passwd" = "database") then None
                             else if decide ("passwd" = "db")
                                  then match parms !! "database" with
                                       | Some v => Some v
                                       | None => parms !! "db"
                                       end
                                  else parms !! "passwd"
                         end
                    else if decide (k = "database") then None
                         else if decide (k = "db")
                              then match parms !! "database" with
                                   | Some v => Some v
                                   | None => parms !! "db"
                                   end
                              else parms !! k).
  { intros k Hk. rewrite lookup_insert_ne by congruence.
    rewrite rename_lookup by discriminate.
    rewrite !(rename_lookup parms "database" "db") by discriminate.
    reflexivity. }
  split; [apply lookup_insert_eq|].
  split; [now rewrite Hall by discriminate|].
  split; [now rewrite Hall by discriminate|].
  split; [now rewrite Hall by discriminate|].
  split; [now rewrite Hall by discriminate|].
  intros k Hk. cbn [In] in Hk.
  rewrite Hall by (intros ->; apply Hk; auto).
  repeat case_decide; try reflexivity; subst k; exfalso; apply Hk; auto 10.
Qed.

Lemma sqlite_table_keys (k : string) (f : converter) :
  conn_parm_names SQLite !! k = Some f ->
  (k = "create" /\ f = conv_parse_bool)
  \/ (k = "filename" /\ f = conv_str)
  \/ (k = "write" /\ f = conv_parse_bool).
Proof.
  unfold conn_parm_names.
  rewrite lookup_insert_Some, lookup_insert_Some, lookup_singleton_Some.
  intros [[<- <-]|[_ [[<- <-]|[_ [<- <-]]]]]; auto.
Qed.

(** X15: an SQLite connection made through parse_dbms_params is never
    opened with the flag that creates the file: the constructor receives a
    file name that is a string and opens it read-write, or read-only when
    write was given a false value, and it raises the TypeError of a missing
    argument when no filename was given. *)
Theorem sqlite_init_after_parse
        (getpass : string -> string) (paramsstr doing_what : string)
        (call : connect_call) (consts : open_flags) :
  parse_dbms_params getpass paramsstr doing_what = Ok call ->
  call_class call = SQLite ->
  SQLiteDBMS.__init__ consts (call_kwargs call)
  = match call_kwargs call !! "filename" with
    | None => Raise TypeError
    | Some filename =>
        Ok (filename,
            match call_kwargs call !! "write" with
            | Some (VBool false) => SQLITE_OPEN_READONLY consts
            | _ => SQLITE_OPEN_READWRITE consts
            end)
    end
  /\ (forall filename : pyval,
        call_kwargs call !! "filename" = Some filename ->
        exists name : string, filename = VStr name).
Proof.
  intros Hcall Hcls.
  destruct (parse_ok_inv getpass paramsstr doing_what call Hcall)
    as (dbmstype & items & m & _ & _ & Hloop & Hkw).
  assert (Htable : from_table SQLite (call_kwargs call)).
  { rewrite Hkw. apply resolve_password_from_table. rewrite Hcls in Hloop.
    refine (param_loop_from_table _ items ∅ ∅ m ∅ _ Hloop).
    intros k v Hk. now rewrite lookup_empty in Hk. }
  set (kwargs := call_kwargs call) in *.
  assert (Hdom : dom kwargs ⊆ {[ "filename"; "create"; "write" ]}).
  { intros k Hk. apply elem_of_dom in Hk as [v Hv].
    destruct (Htable k v Hv) as (_ & f & Hf & _).
    destruct (sqlite_table_keys k f Hf) as [[-> _]|[[-> _]|[-> _]]]; set_solver. }
  assert (Hcreate : kwargs !! "create" = None).
  { destruct (kwargs !! "create") as [v|] eqn:Hv; [|reflexivity].
    now destruct (Htable "create" v Hv) as (Hne & _). }
  assert (Hwrite : forall v, kwargs !! "write" = Some v -> exists b, v = VBool b).
  { intros v Hv. destruct (Htable "write" v Hv) as (_ & f & Hf & Ht).
    destruct (sqlite_table_keys "write" f Hf) as [[H _]|[[H _]|[_ ->]]];
      try discriminate H.
    destruct v; try discriminate Ht. eauto. }
  split.
  - unfold SQLiteDBMS.__init__. rewrite (bool_decide_eq_true_2 _ Hdom). cbn [negb].
    destruct (kwargs !! "filename") as [filename|]; [|reflexivity].
    rewrite Hcreate. cbv zeta.
    destruct (kwargs !! "write") as [v|] eqn:Hv.
    + destruct (Hwrite v eq_refl) as [b ->].
      destruct b; cbn [SQLiteDBMS.tuple_index res_bind]; now rewrite Z.lor_0_r.
    + cbn [SQLiteDBMS.tuple_index res_bind]. now rewrite Z.lor_0_r.
  - intros filename Hv. destruct (Htable "filename" filename Hv) as (_ & f & Hf & Ht).
    destruct (sqlite_table_keys "filename" f Hf) as [[H _]|[[_ ->]|[H _]]];
      try discriminate H.
    destruct filename; try discriminate Ht. eauto.
Qed.

Lemma sqlite_init_after_parse_witness :
  SQLiteDBMS.__init__ sqlite_flags (call_kwargs sample_sqlite_call)
  = Ok (VStr "x.db", 1).
Proof.
  assert (H : parse_dbms_params (fun _ => "") "sqlite:filename=x.db:write=no" ""
              = Ok sample_sqlite_call) by (vm_compute; reflexivity).
  destruct (sqlite_init_after_parse _ _ _ _ sqlite_flags H eq_refl) as [Hinit _].
  etransitivity; [exact Hinit | vm_compute; reflexivity].
Defined.
